(** * Layered-import checker: a shallow embedding of
      [scripts/check_layered_imports.py] and the properties of its
      classification, rule evaluation and reporting pipeline.

    Python [str] values are modelled by [string]; a character is a code
    point below 256.  [set[str]] is [gset string] and
    [dict[str, set[str]]] is [gmap string (gset string)].  Integers are
    [Z].  Exceptions are values of [exn], threaded through a small
    state-and-error monad whose state records which files were read. *)

From Stdlib Require Import ZArith Ascii String List Sorting.Sorted Sorting.Permutation.
From Stdlib Require Import Structures.OrdersEx.
From stdpp Require Import base gmap strings list pretty.

Local Open Scope string_scope.

(** ** Python string primitives used by the script *)

Module PyStr.

(** [str.isspace] restricted to code points below 256. *)
Definition isspace (c : ascii) : bool :=
  let n := nat_of_ascii c in
  (((9 <=? n) && (n <=? 13)) || ((28 <=? n) && (n <=? 32))
   || (n =? 133) || (n =? 160))%nat.

(** [not s] for a string: true exactly for the empty string. *)
Definition is_empty (s : string) : bool :=
  match s with EmptyString => true | String _ _ => false end.

(** [c in s] for a one-character needle. *)
Fixpoint contains (c : ascii) (s : string) : bool :=
  match s with
  | EmptyString => false
  | String a s' => if Ascii.eqb a c then true else contains c s'
  end.

(** [s.startswith(pre)]. *)
Definition startswith (s pre : string) : bool := String.prefix pre s.

Fixpoint drop (n : nat) (s : string) : string :=
  match n, s with
  | O, _ => s
  | S n', String _ s' => drop n' s'
  | S _, EmptyString => EmptyString
  end.

(** [s.removeprefix(pre)]. *)
Definition removeprefix (s pre : string) : string :=
  if startswith s pre then drop (String.length pre) s else s.

(** [s.split(c, 1)]: the text before the first [c] and, when there is
    a [c], the text after it. *)
Fixpoint split1 (c : ascii) (s : string) : string * option string :=
  match s with
  | EmptyString => (EmptyString, None)
  | String a s' =>
      if Ascii.eqb a c then (EmptyString, Some s')
      else let '(h, t) := split1 c s' in (String a h, t)
  end.

(** [s.split(c)]: all the fields, never an empty list. *)
Fixpoint split (c : ascii) (s : string) : list string :=
  match s with
  | EmptyString => [EmptyString]
  | String a s' =>
      if Ascii.eqb a c then EmptyString :: split c s'
      else match split c s' with
           | h :: t => String a h :: t
           | [] => [String a EmptyString]
           end
  end.

Fixpoint lstrip (s : string) : string :=
  match s with
  | EmptyString => EmptyString
  | String a s' => if isspace a then lstrip s' else s
  end.

(** Removes trailing white space: a character is kept when it is not
    white space or when something is kept after it. *)
Fixpoint rstrip (s : string) : string :=
  match s with
  | EmptyString => EmptyString
  | String a s' =>
      match rstrip s' with
      | EmptyString => if isspace a then EmptyString else String a EmptyString
      | r => String a r
      end
  end.

(** [s.strip()]. *)
Definition strip (s : string) : string := rstrip (lstrip s).

(** [sep.join(parts)]. *)
Fixpoint join (sep : string) (parts : list string) : string :=
  match parts with
  | [] => EmptyString
  | [p] => p
  | p :: ps => p ++ sep ++ join sep ps
  end.

End PyStr.

(** ** Layer classification *)

(** The two reserved labels, [layer in {"root", "other"}]. *)
Definition reserved (layer : string) : bool :=
  bool_decide (layer = "root") || bool_decide (layer = "other").

Definition _imported_layer (imported_module package_name : string)
    (layer_names : gset string) : string :=
  if PyStr.is_empty imported_module then "other"
  else if bool_decide (imported_module = package_name) then "root"
  else
    let prefix := package_name ++ "." in
    if negb (PyStr.startswith imported_module prefix) then "other"
    else
      let remainder := PyStr.removeprefix imported_module prefix in
      let first := fst (PyStr.split1 "." remainder) in
      if bool_decide (first ∈ layer_names) then first else "root".


(** ** Paths ([pathlib.PurePosixPath]) *)

(** A path is its tuple of parts; an absolute path starts with the
    anchor part ["/"]. *)
Record Path := mkPath { parts : list string }.

#[global] Instance Path_eq_dec : EqDecision Path.
Proof. solve_decision. Defined.

(** [root / rel] for a relative [rel]. *)
Definition joinpath (root : Path) (rel : list string) : Path :=
  mkPath (parts root ++ rel).

(** The anchors of POSIX paths: one slash, or exactly two. *)
Definition is_anchor (part : string) : bool :=
  bool_decide (part = "/") || bool_decide (part = "//").

(** [path.name]: the final part, empty when there is none or when it is
    the anchor. *)
Definition path_name (p : Path) : string :=
  match rev (parts p) with
  | [] => ""
  | x :: _ => if is_anchor x then "" else x
  end.

(** [str(path)]: the anchor, then the other parts joined by slashes. *)
Definition path_str (p : Path) : string :=
  match parts p with
  | [] => "."
  | x :: rest =>
      if is_anchor x then x ++ PyStr.join "/" rest
      else PyStr.join "/" (x :: rest)
  end.

(** ** Exceptions and the effect monad *)

Inductive exn :=
| ValueError (msg : string)
| IndexError (msg : string)
| SystemExit_msg (msg : string)
| UnicodeDecodeError (msg : string)
| OSError (class_name msg : string)
| MemoryError (msg : string).

(** What a run has done so far: the files whose text was read, and the
    lines printed, both in order. *)
Record World := mkWorld { reads : list Path; stdout : list string }.

Definition M (A : Type) : Type := World → (exn + A) * World.

Definition ret {A} (a : A) : M A := λ w, (inr a, w).

Definition raise {A} (e : exn) : M A := λ w, (inl e, w).

Definition bind {A B} (m : M A) (k : A → M B) : M B :=
  λ w, match m w with
       | (inl e, w') => (inl e, w')
       | (inr a, w') => k a w'
       end.

Definition lift {A} (r : exn + A) : M A :=
  match r with inl e => raise e | inr a => ret a end.

Definition print (line : string) : M unit :=
  λ w, (inr tt, mkWorld (reads w) (stdout w ++ [line])).

Notation "'let!' x ':=' m 'in' k" := (bind m (λ x, k))
  (at level 10, x pattern, m at level 100, k at level 200, only parsing).

(** [file_path.relative_to(root_dir)]: the parts below [root_dir], or
    [ValueError] when [root_dir] is not a leading part of the path.  The
    two paths are taken to have the same anchor, as the paths that
    [rglob] yields below [root_dir] do. *)
Fixpoint strip_parts (root ps : list string) : option (list string) :=
  match root, ps with
  | [], _ => Some ps
  | r :: root', p :: ps' =>
      if bool_decide (r = p) then strip_parts root' ps' else None
  | _ :: _, [] => None
  end.

Definition relative_to (file_path root_dir : Path) : exn + list string :=
  match strip_parts (parts root_dir) (parts file_path) with
  | Some rel => inr rel
  | None => inl (ValueError "path is not in the subpath of root")
  end.

Definition _file_layer (root_dir file_path : Path) (layer_names : gset string)
    : exn + string :=
  match relative_to file_path root_dir with
  | inl e => inl e
  | inr relative =>
      if bool_decide (length relative = 1%nat) then inr "root"
      else match relative with
           | [] => inl (IndexError "tuple index out of range")
           | top :: _ =>
               if bool_decide (top ∈ layer_names) then inr top
               else inr "other"
           end
  end.

(** ** Syntax trees ([ast]) and the import walk *)

Record alias := mkAlias { alias_name : string; alias_asname : option string }.

(** The node kinds the script distinguishes; every other kind of node
    is a [Node] with its children. *)
#[warnings="-register-all"]
Inductive ast :=
| Import (names : list alias) (lineno col_offset : Z)
| ImportFrom (module : option string) (names : list alias) (level : Z)
             (lineno col_offset : Z)
| AliasNode (a : alias)
| Node (children : list ast).

(** [ast.iter_child_nodes]. *)
Definition iter_child_nodes (node : ast) : list ast :=
  match node with
  | Import names _ _ => map AliasNode names
  | ImportFrom _ names _ _ _ => map AliasNode names
  | AliasNode _ => []
  | Node children => children
  end.

Fixpoint ast_size (t : ast) : nat :=
  match t with
  | Import names _ _ => S (length names)
  | ImportFrom _ names _ _ _ => S (length names)
  | AliasNode _ => 1
  | Node children => S (list_sum (map ast_size children))
  end.

(** The loop of [ast.walk]: pop the left end of the queue, push the
    children on the right, yield the node. *)
Fixpoint walk_queue (fuel : nat) (todo : list ast) : list ast :=
  match fuel with
  | O => []
  | S fuel' =>
      match todo with
      | [] => []
      | node :: rest => node :: walk_queue fuel' (rest ++ iter_child_nodes node)
      end
  end.

(** [ast.walk(tree)]. *)
Definition walk (tree : ast) : list ast := walk_queue (ast_size tree) [tree].

(** An import reference: module path, line, column. *)
Definition ImportRef : Type := string * Z * Z.

(** What the body of the loop of [_iter_imports] yields at one node. *)
Definition node_imports (node : ast) : list ImportRef :=
  match node with
  | Import names lineno col_offset =>
      map (λ a, (alias_name a, lineno, col_offset)) names
  | ImportFrom None _ _ _ _ => []
  | ImportFrom (Some m) _ _ lineno col_offset => [(m, lineno, col_offset)]
  | _ => []
  end.

Definition _iter_imports (tree : ast) : list ImportRef :=
  flat_map node_imports (walk tree).

(** ** The per-file check *)

Record ImportViolation := mkViolation {
  file_path : Path;
  file_layer : string;
  imported_module : string;
  imported_layer : string;
  v_lineno : Z;
  v_col_offset : Z;
  reason : string
}.

#[global] Instance ImportViolation_eq_dec : EqDecision ImportViolation.
Proof. solve_decision. Defined.

(** The outcome of [ast.parse(file_path.read_text(...))]: a tree, a
    [SyntaxError] with its [lineno], [offset] and [msg], or any other
    exception: [OSError] for a file that cannot be read,
    [UnicodeDecodeError] for text that is not UTF-8, [ValueError] for
    text with a NUL character, [MemoryError] from the parser. *)
Inductive parse_result :=
| Parsed (tree : ast)
| SyntaxError (lineno offset : option Z) (msg : string)
| Uncaught (e : exn).

(** The part of the file system the script touches. [fs_rglob_py d]
    lists the files [d.rglob("*.py")] yields, in the order it yields
    them, each as its parts below [d]: the first one and the others. *)
Record FileSystem := mkFS {
  fs_exists : Path → bool;
  fs_is_dir : Path → bool;
  fs_rglob_py : Path → list (string * list string);
  fs_parse : Path → parse_result
}.

(** Reading and parsing a file, recorded in the world.  The [try]
    block of [_violations_for_file] sees a tree or a [SyntaxError]; any
    other exception leaves the function. *)
Definition read_and_parse (fs : FileSystem) (p : Path) : M parse_result :=
  λ w, let w' := mkWorld (reads w ++ [p]) (stdout w) in
       match fs_parse fs p with
       | Uncaught e => (inl e, w')
       | parsed => (inr parsed, w')
       end.

(** [x or d] for an optional integer: [None] and [0] are falsy. *)
Definition or_default (x : option Z) (d : Z) : Z :=
  match x with
  | None => d
  | Some n => if (n =? 0)%Z then d else n
  end.

Definition forbidden_reason : string :=
  "Forbidden import direction by configured layer rules.".

(** One iteration of the loop over the import references. *)
Definition check_import (file_path : Path) (layer package_name : string)
    (layer_names : gset string) (forbid : gmap string (gset string))
    (violations : list ImportViolation) (ref : ImportRef)
    : list ImportViolation :=
  let '(imported_module, lineno, col_offset) := ref in
  let imported_layer := _imported_layer imported_module package_name layer_names in
  if reserved imported_layer then violations
  else
    match forbid !! layer with
    | None => violations
    | Some forbidden_targets =>
        if bool_decide (forbidden_targets = ∅) then violations
        else if bool_decide (imported_layer ∈ forbidden_targets) then
          violations ++
            [mkViolation file_path layer imported_module imported_layer
               lineno col_offset forbidden_reason]
        else violations
    end.

Definition _violations_for_file (fs : FileSystem) (root_dir file_path : Path)
    (package_name : string) (layer_names : gset string)
    (forbid : gmap string (gset string)) : M (list ImportViolation) :=
  let! layer := lift (_file_layer root_dir file_path layer_names) in
  if reserved layer then ret []
  else
    let! parsed := read_and_parse fs file_path in
    match parsed with
    | SyntaxError exc_lineno exc_offset exc_msg =>
        let lineno := or_default exc_lineno 1 in
        let col := or_default exc_offset 0 in
        ret [mkViolation file_path layer "(parse error)" "other" lineno col
               ("SyntaxError: " ++ exc_msg)]
    | Parsed tree =>
        ret (fold_left
               (check_import file_path layer package_name layer_names forbid)
               (_iter_imports tree) [])
    | Uncaught e => raise e
    end.

(** ** Configuration parsing *)

Definition _parse_csv (value : string) : list string :=
  filter (λ part, part ≠ "") (map PyStr.strip (PyStr.split "," value)).

(** One iteration of the loop of [_parse_forbid_entries]. *)
Definition parse_forbid_entry (forbid : gmap string (gset string))
    (entry : string) : exn + gmap string (gset string) :=
  if negb (PyStr.contains ":" entry) then
    inl (ValueError ("Invalid --forbid entry (expected 'from:to1,to2'): " ++ entry))
  else
    let '(src0, rest) := PyStr.split1 ":" entry in
    let dst_csv := default "" rest in
    let src := PyStr.strip src0 in
    if PyStr.is_empty src then
      inl (ValueError ("Invalid --forbid entry (empty source layer): " ++ entry))
    else
      let destinations : gset string := list_to_set (_parse_csv dst_csv) in
      if bool_decide (destinations = ∅) then
        inl (ValueError ("Invalid --forbid entry (empty destinations): " ++ entry))
      else
        inr (<[src := (default ∅ (forbid !! src) ∪ destinations)]> forbid).

Fixpoint parse_forbid_loop (entries : list string)
    (forbid : gmap string (gset string)) : exn + gmap string (gset string) :=
  match entries with
  | [] => inr forbid
  | entry :: entries' =>
      match parse_forbid_entry forbid entry with
      | inl e => inl e
      | inr forbid' => parse_forbid_loop entries' forbid'
      end
  end.

Definition _parse_forbid_entries (entries : list string)
    : exn + gmap string (gset string) :=
  parse_forbid_loop entries ∅.

Definition default_forbid : gmap string (gset string) :=
  {[ "domain" := {[ "dataset"; "adaptor"; "service" ]};
     "dataset" := {[ "adaptor"; "service" ]};
     "adaptor" := {[ "dataset"; "service" ]} ]}.

(** ** Discovery *)

Definition _iter_python_files (fs : FileSystem) (root_dir : Path)
    (include_tests : bool) : list Path :=
  filter
    (λ path, ("__pycache__" ∉ parts path)
             ∧ ¬ (include_tests = false ∧ "tests" ∈ parts path))
    (map (λ rel, joinpath root_dir (rel.1 :: rel.2)) (fs_rglob_py fs root_dir)).

(** ** Reporting *)

Definition _format_violation (violation : ImportViolation) : string :=
  let location :=
    path_str (file_path violation) ++ ":" ++ pretty (v_lineno violation)
    ++ ":" ++ pretty (v_col_offset violation + 1)%Z in
  location ++ " [" ++ file_layer violation ++ " -> "
  ++ imported_layer violation ++ "] " ++ imported_module violation
  ++ " :: " ++ reason violation.

(** The sort key [(str(v.file_path), v.lineno, v.col_offset)]. *)
Definition Key : Type := string * Z * Z.

Definition sort_key (v : ImportViolation) : Key :=
  (path_str (file_path v), v_lineno v, v_col_offset v).

(** Tuple comparison: component by component, strings by code point. *)
Definition key_compare (k1 k2 : Key) : comparison :=
  let '(s1, l1, c1) := k1 in
  let '(s2, l2, c2) := k2 in
  match String_as_OT.compare s1 s2 with
  | Eq => match Z.compare l1 l2 with
          | Eq => Z.compare c1 c2
          | r => r
          end
  | r => r
  end.

Definition key_ltb (k1 k2 : Key) : bool :=
  match key_compare k1 k2 with Lt => true | _ => false end.

(** [sorted(xs, key=...)]: Python's sort is stable and only asks
    whether one key is less than another.  Inserting from the right,
    each element goes in front of the first element whose key is not
    smaller, so equal keys keep the order they had. *)
Fixpoint insert_sorted (x : ImportViolation) (l : list ImportViolation)
    : list ImportViolation :=
  match l with
  | [] => [x]
  | y :: l' =>
      if key_ltb (sort_key y) (sort_key x) then y :: insert_sorted x l'
      else x :: l
  end.

Definition sorted (l : list ImportViolation) : list ImportViolation :=
  foldr insert_sorted [] l.

Fixpoint print_all (lines : list string) : M unit :=
  match lines with
  | [] => ret tt
  | line :: lines' => let! _ := print line in print_all lines'
  end.

(** ** The driver *)

(** The parsed command line, defaults applied. *)
Record Args := mkArgs {
  arg_root : Path;
  arg_package_name : string;
  arg_layers : string;
  arg_forbid : list string;
  arg_include_tests : bool
}.

Definition default_layers : string := "domain,dataset,adaptor,service".

(** The loop over the discovered files, extending [all_violations]. *)
Fixpoint scan_loop (fs : FileSystem) (root_dir : Path) (package_name : string)
    (layer_names : gset string) (forbid : gmap string (gset string))
    (files : list Path) (all_violations : list ImportViolation)
    : M (list ImportViolation) :=
  match files with
  | [] => ret all_violations
  | file_path :: files' =>
      let! vs := _violations_for_file fs root_dir file_path package_name
                   layer_names forbid in
      scan_loop fs root_dir package_name layer_names forbid files'
        (all_violations ++ vs)
  end.

(** The forbidden mapping the scan uses. *)
Definition effective_forbid (entries : list string)
    : exn + gmap string (gset string) :=
  match _parse_forbid_entries entries with
  | inl e => inl e
  | inr forbid => inr (if bool_decide (forbid = ∅) then default_forbid else forbid)
  end.

(** Lines 187-212 of the script: check the root, build the
    configuration, scan every discovered file. *)
Definition collect (args : Args) (fs : FileSystem) : M (list ImportViolation) :=
  let root_dir := arg_root args in
  if negb (fs_exists fs root_dir) || negb (fs_is_dir fs root_dir) then
    raise (SystemExit_msg
             ("--root must be an existing directory: " ++ path_str root_dir))
  else
    let package_name :=
      let stripped := PyStr.strip (arg_package_name args) in
      if PyStr.is_empty stripped then path_name root_dir else stripped in
    let layer_names : gset string := list_to_set (_parse_csv (arg_layers args)) in
    let! forbid := lift (effective_forbid (arg_forbid args)) in
    scan_loop fs root_dir package_name layer_names forbid
      (_iter_python_files fs root_dir (arg_include_tests args)) [].

Definition render (violation : ImportViolation) : string :=
  "- " ++ _format_violation violation.

(** Lines 214-222 of the script: print the outcome, return the status. *)
Definition report (all_violations : list ImportViolation) : M Z :=
  match all_violations with
  | [] =>
      let! _ := print "OK: no layered-import violations found." in
      ret 0%Z
  | _ :: _ =>
      let! _ := print "Layered-import violations:" in
      let! _ := print_all (map render (sorted all_violations)) in
      ret 1%Z
  end.

Definition main (args : Args) (fs : FileSystem) : M Z :=
  let! all_violations := collect args fs in
  report all_violations.

(** What the operating system sees of a run of the script, whose last
    line is [raise SystemExit(main())]: an integer result is the exit
    status; [SystemExit] with a message prints the message on the error
    stream and exits with status 1; an exception nobody catches prints
    a traceback ending in its name and message and exits with status 1. *)
Record Process := mkProcess {
  exit_status : Z;
  out_lines : list string;
  err_message : option string;
  files_read : list Path
}.

Definition run_script (args : Args) (fs : FileSystem) : Process :=
  match main args fs (mkWorld [] []) with
  | (inr status, w) => mkProcess status (stdout w) None (reads w)
  | (inl (SystemExit_msg msg), w) => mkProcess 1 (stdout w) (Some msg) (reads w)
  | (inl (ValueError msg), w) =>
      mkProcess 1 (stdout w) (Some ("ValueError: " ++ msg)) (reads w)
  | (inl (IndexError msg), w) =>
      mkProcess 1 (stdout w) (Some ("IndexError: " ++ msg)) (reads w)
  | (inl (UnicodeDecodeError msg), w) =>
      mkProcess 1 (stdout w) (Some ("UnicodeDecodeError: " ++ msg)) (reads w)
  | (inl (OSError class_name msg), w) =>
      mkProcess 1 (stdout w) (Some (class_name ++ ": " ++ msg)) (reads w)
  | (inl (MemoryError msg), w) =>
      mkProcess 1 (stdout w) (Some ("MemoryError: " ++ msg)) (reads w)
  end.

(** ** Pure views of the loops, used to state the properties *)

(** The violation one import reference gives rise to, if any. *)
Definition import_violation (file_path : Path) (layer package_name : string)
    (layer_names : gset string) (forbid : gmap string (gset string))
    (ref : ImportRef) : option ImportViolation :=
  let '(imported_module, lineno, col_offset) := ref in
  let imported_layer := _imported_layer imported_module package_name layer_names in
  if reserved imported_layer then None
  else
    match forbid !! layer with
    | Some forbidden_targets =>
        if bool_decide (imported_layer ∈ forbidden_targets) then
          Some (mkViolation file_path layer imported_module imported_layer
                  lineno col_offset forbidden_reason)
        else None
    | None => None
    end.

Definition parse_error_violation (file_path : Path) (layer : string)
    (exc_lineno exc_offset : option Z) (exc_msg : string) : ImportViolation :=
  mkViolation file_path layer "(parse error)" "other"
    (or_default exc_lineno 1) (or_default exc_offset 0)
    ("SyntaxError: " ++ exc_msg).

(** The violations of a file of a checkable layer, from its parse. *)
Definition parse_violations (file_path : Path) (layer package_name : string)
    (layer_names : gset string) (forbid : gmap string (gset string))
    (parsed : parse_result) : list ImportViolation :=
  match parsed with
  | SyntaxError ln off msg => [parse_error_violation file_path layer ln off msg]
  | Parsed tree =>
      omap (import_violation file_path layer package_name layer_names forbid)
        (_iter_imports tree)
  | Uncaught _ => []
  end.

(** The exception reading and parsing ends with, if it is not caught. *)
Definition raised (parsed : parse_result) : option exn :=
  match parsed with
  | Uncaught e => Some e
  | _ => None
  end.

(** The violations of one discovered file. *)
Definition file_violations (fs : FileSystem) (root_dir : Path)
    (package_name : string) (layer_names : gset string)
    (forbid : gmap string (gset string)) (file_path : Path)
    : list ImportViolation :=
  match _file_layer root_dir file_path layer_names with
  | inl _ => []
  | inr layer =>
      if reserved layer then []
      else parse_violations file_path layer package_name layer_names forbid
             (fs_parse fs file_path)
  end.

(** Every node of a tree, the tree itself first. *)
Fixpoint subtrees (t : ast) : list ast :=
  t :: match t with
       | Import names _ _ => map AliasNode names
       | ImportFrom _ names _ _ _ => map AliasNode names
       | AliasNode _ => []
       | Node children => flat_map subtrees children
       end.

(** A violation stems from the import reference [ref]. *)
Definition from_import (ref : ImportRef) (v : ImportViolation) : Prop :=
  (imported_module v, v_lineno v, v_col_offset v) = ref.

(** Non-strict and strict order of sort keys. *)
Definition key_le (a b : ImportViolation) : Prop :=
  key_compare (sort_key a) (sort_key b) ≠ Gt.

Definition key_lt (a b : ImportViolation) : Prop :=
  key_compare (sort_key a) (sort_key b) = Lt.

(** Reading a file adds it to the record of reads. *)
Definition after_read (w : World) (fp : Path) : World :=
  mkWorld (reads w ++ [fp]) (stdout w).

(** The file's text is read: it classifies into a declared layer. *)
Definition checkable (root_dir : Path) (layer_names : gset string)
    (file_path : Path) : bool :=
  match _file_layer root_dir file_path layer_names with
  | inl _ => false
  | inr layer => negb (reserved layer)
  end.

(** The exception the check of one file ends with, if any. *)
Definition file_raises (fs : FileSystem) (root_dir : Path)
    (layer_names : gset string) (file_path : Path) : option exn :=
  match _file_layer root_dir file_path layer_names with
  | inl e => Some e
  | inr layer =>
      if reserved layer then None else raised (fs_parse fs file_path)
  end.

(** Every file of the list that the scan reads gives a tree or a
    [SyntaxError]. *)
Definition scan_quiet (fs : FileSystem) (root_dir : Path)
    (layer_names : gset string) (files : list Path) : Prop :=
  ∀ fp e, fp ∈ files → checkable root_dir layer_names fp = true →
          fs_parse fs fp ≠ Uncaught e.

(** The configuration [collect] builds from the command line. *)
Definition package_name_of (args : Args) : string :=
  let stripped := PyStr.strip (arg_package_name args) in
  if PyStr.is_empty stripped then path_name (arg_root args) else stripped.

Definition layer_names_of (args : Args) : gset string :=
  list_to_set (_parse_csv (arg_layers args)).

(** The root passes the check at the start of [main]. *)
Definition root_ok (args : Args) (fs : FileSystem) : bool :=
  fs_exists fs (arg_root args) && fs_is_dir fs (arg_root args).

(** The two sides of a [--forbid] entry, as [_parse_forbid_entries]
    cuts them. *)
Definition entry_source (entry : string) : string :=
  PyStr.strip (fst (PyStr.split1 ":" entry)).

Definition entry_destinations (entry : string) : list string :=
  _parse_csv (default "" (snd (PyStr.split1 ":" entry))).

(** The entries [_parse_forbid_entries] rejects. *)
Definition malformed (entry : string) : Prop :=
  PyStr.contains ":" entry = false
  ∨ entry_source entry = ""
  ∨ entry_destinations entry = [].

(** What the shape check guarantees of a forbidden mapping. *)
Definition well_shaped (forbid : gmap string (gset string)) : Prop :=
  ∀ src ds, forbid !! src = Some ds →
    src ≠ "" ∧ ds ≠ ∅ ∧ ∀ d, d ∈ ds → d ≠ "".

#[global] Instance Key_eq_dec : EqDecision Key.
Proof. unfold Key. apply _. Defined.

(** The violations with a given sort key, in the order of the list. *)
Definition with_key (k : Key) (l : list ImportViolation) : list ImportViolation :=
  filter (λ v, sort_key v = k) l.

(** Two file systems that hold the same files under [root_dir] but list
    them in different orders. *)
Definition same_files (fs fs' : FileSystem) (root_dir : Path) : Prop :=
  fs_exists fs' root_dir = fs_exists fs root_dir
  ∧ fs_is_dir fs' root_dir = fs_is_dir fs root_dir
  ∧ (∀ p, fs_parse fs' p = fs_parse fs p)
  ∧ fs_rglob_py fs' root_dir ≡ₚ fs_rglob_py fs root_dir.

(** The mapping forbids imports of layer [dst] from layer [src]. *)
Definition forbids (forbid : gmap string (gset string)) (src dst : string)
    : Prop :=
  ∃ ds, forbid !! src = Some ds ∧ dst ∈ ds.

(** The rules that mention declared layers only. *)
Definition declared_part (layer_names : gset string)
    (forbid : gmap string (gset string)) : gmap string (gset string) :=
  (λ ds, ds ∩ layer_names)
    <$> filter (λ kv, kv.1 ∈ layer_names) forbid.

(** The message of the [ValueError] a malformed entry raises. *)
Definition forbid_error (entry : string) : string :=
  if negb (PyStr.contains ":" entry) then
    "Invalid --forbid entry (expected 'from:to1,to2'): " ++ entry
  else if bool_decide (entry_source entry = "") then
    "Invalid --forbid entry (empty source layer): " ++ entry
  else "Invalid --forbid entry (empty destinations): " ++ entry.

(** The same command line with test files included. *)
Definition with_tests (args : Args) : Args :=
  mkArgs (arg_root args) (arg_package_name args) (arg_layers args)
    (arg_forbid args) true.

(** ** A small package used in the examples *)

Module Ex.

Definition root : Path := mkPath ["pkg"].

(** [import pkg.adaptor.http, pkg.service.api], then
    [from pkg import adaptor], then [from . import x] inside a block,
    then [import os]. *)
Definition tree : ast :=
  Node [Import [mkAlias "pkg.adaptor.http" None; mkAlias "pkg.service.api" None] 1 0;
        ImportFrom (Some "pkg") [mkAlias "adaptor" None] 0 2 0;
        Node [ImportFrom None [mkAlias "x" None] 1 4 4];
        Import [mkAlias "os" None] 5 0].

Definition domain_a : Path := mkPath ["pkg"; "domain"; "a.py"].
Definition adaptor_b : Path := mkPath ["pkg"; "adaptor"; "b.py"].
Definition scripts_c : Path := mkPath ["pkg"; "scripts"; "c.py"].

(** [domain/a.py] holds [tree]; every other file fails to parse. *)
Definition parse (p : Path) : parse_result :=
  if bool_decide (p = domain_a) then Parsed tree
  else SyntaxError (Some 3%Z) None "invalid syntax".

Definition fs : FileSystem :=
  mkFS (λ _, true) (λ _, true)
    (λ _, [("domain", ["a.py"]); ("adaptor", ["b.py"]); ("scripts", ["c.py"])])
    parse.

(** The same files, discovered in another order. *)
Definition fs_reordered : FileSystem :=
  mkFS (λ _, true) (λ _, true)
    (λ _, [("scripts", ["c.py"]); ("adaptor", ["b.py"]); ("domain", ["a.py"])])
    parse.

(** No directory at the root path. *)
Definition fs_missing : FileSystem :=
  mkFS (λ _, false) (λ _, false) (λ _, [("domain", ["a.py"])]) parse.

(** [domain/a.py] holds a NUL character, which [ast.parse] rejects
    with a [ValueError]; the other files are as in [fs]. *)
Definition parse_nul (p : Path) : parse_result :=
  if bool_decide (p = domain_a) then
    Uncaught (ValueError "source code string cannot contain null bytes")
  else parse p.

Definition fs_nul : FileSystem :=
  mkFS (λ _, true) (λ _, true)
    (λ _, [("domain", ["a.py"]); ("adaptor", ["b.py"]); ("scripts", ["c.py"])])
    parse_nul.

Definition layers : gset string := list_to_set (_parse_csv default_layers).

Definition args : Args := mkArgs root "" default_layers [] false.

Definition args_forbid (entries : list string) : Args :=
  mkArgs root "" default_layers entries false.

Definition w0 : World := mkWorld [] [].

End Ex.

(** * Properties *)

(** ** String primitives *)

#[local] Arguments String.append !_ _ / : simpl nomatch.

Section PyStrFacts.

Import PyStr.

Lemma append_assoc (a b c : string) : (a ++ b) ++ c = a ++ b ++ c.
Proof. induction a as [|x a IH]; simpl; [reflexivity | now rewrite IH]. Qed.

Lemma is_empty_true (s : string) : is_empty s = true ↔ s = "".
Proof. destruct s; simpl; split; congruence. Qed.

Lemma startswith_app (pre r : string) : startswith (pre ++ r) pre = true.
Proof.
  unfold startswith. induction pre as [|x pre IH]; simpl.
  - now destruct r.
  - destruct (ascii_dec x x); [assumption | congruence].
Qed.

Lemma startswith_inv (s pre : string) :
  startswith s pre = true → ∃ r, s = pre ++ r.
Proof.
  unfold startswith. revert s. induction pre as [|x pre IH]; intros s H.
  - exists s. reflexivity.
  - destruct s as [|y s]; simpl in H; [discriminate |].
    destruct (ascii_dec x y) as [->|]; [| discriminate].
    destruct (IH _ H) as [r ->]. exists r. reflexivity.
Qed.

Lemma drop_app (pre r : string) : drop (String.length pre) (pre ++ r) = r.
Proof. induction pre; simpl; [now destruct r | assumption]. Qed.

Lemma removeprefix_app (pre r : string) : removeprefix (pre ++ r) pre = r.
Proof. unfold removeprefix. rewrite startswith_app. apply drop_app. Qed.

(** The first field of [split(c, 1)] is the longest prefix without [c]. *)
Lemma split1_first (c : ascii) (seg rest : string) :
  contains c seg = false →
  rest = "" ∨ (∃ r, rest = String c r) →
  fst (split1 c (seg ++ rest)) = seg.
Proof.
  intros Hseg Hrest. induction seg as [|x seg IH]; simpl in *.
  - destruct Hrest as [-> | [r ->]]; simpl; [reflexivity |].
    now rewrite Ascii.eqb_refl.
  - destruct (Ascii.eqb x c); [discriminate |].
    specialize (IH Hseg). destruct (split1 c (seg ++ rest)). simpl in *.
    now subst.
Qed.

Lemma split1_contains (c : ascii) (s : string) :
  contains c s = true →
  ∃ rest, split1 c s = (fst (split1 c s), Some rest)
          ∧ s = fst (split1 c s) ++ String c rest
          ∧ contains c (fst (split1 c s)) = false.
Proof.
  induction s as [|x s IH]; simpl; [discriminate |].
  destruct (Ascii.eqb x c) eqn:E.
  - intros _. apply Ascii.eqb_eq in E as ->. exists s. auto.
  - intros H. destruct (IH H) as (rest & Hs & Heq & Hc).
    destruct (split1 c s) as [h t]. simpl in *.
    exists rest. inversion Hs; subst t. rewrite E.
    repeat split; [| assumption]. now rewrite Heq at 1.
Qed.

End PyStrFacts.

(** ** The import classifier *)

Lemma imported_layer_empty (p : string) (L : gset string) :
  _imported_layer "" p L = "other".
Proof. reflexivity. Qed.

Lemma imported_layer_package (p : string) (L : gset string) :
  p ≠ "" → _imported_layer p p L = "root".
Proof.
  intros Hp. unfold _imported_layer.
  destruct p; [congruence |]. simpl. now rewrite bool_decide_eq_true_2.
Qed.

Lemma append_dot_neq (p r : string) : p ++ "." ++ r ≠ p.
Proof.
  induction p as [|x p IH]; simpl; [discriminate |].
  intros H. apply IH. now inversion H.
Qed.

Lemma imported_layer_under_package (p seg rest : string) (L : gset string) :
  PyStr.contains "." seg = false →
  rest = "" ∨ (∃ r, rest = String "." r) →
  _imported_layer (p ++ "." ++ seg ++ rest) p L
  = if bool_decide (seg ∈ L) then seg else "root".
Proof.
  intros Hseg Hrest. unfold _imported_layer.
  assert (PyStr.is_empty (p ++ "." ++ seg ++ rest) = false) as ->
    by now destruct p.
  rewrite bool_decide_eq_false_2 by apply append_dot_neq.
  rewrite <- (append_assoc p "." (seg ++ rest)).
  rewrite startswith_app. simpl negb. cbv iota.
  rewrite removeprefix_app, split1_first by assumption.
  reflexivity.
Qed.

Lemma imported_layer_outside (m p : string) (L : gset string) :
  m ≠ p → (¬ ∃ r, m = p ++ "." ++ r) → _imported_layer m p L = "other".
Proof.
  intros Hne Hpre. unfold _imported_layer.
  destruct (PyStr.is_empty m); [reflexivity |].
  rewrite bool_decide_eq_false_2 by assumption.
  destruct (PyStr.startswith m (p ++ ".")) eqn:E; [| reflexivity].
  exfalso. apply Hpre. apply startswith_inv in E as [r ->].
  exists r. apply append_assoc.
Qed.

(** C2 (as amended): for every package name [p] and layer-name set [L],
    the classifier maps the empty path to [other]; a non-empty path
    equal to [p] to [root]; a path [p.seg...], where [seg] is the first
    dotted segment after the prefix, to [seg] when [seg] is declared and
    to [root] otherwise; and every path that is neither [p] nor starts
    with [p.] to [other]. *)
Theorem imported_layer_classifies (p : string) (L : gset string) :
  _imported_layer "" p L = "other"
  ∧ (∀ m, m ≠ "" → m = p → _imported_layer m p L = "root")
  ∧ (∀ seg rest,
       PyStr.contains "." seg = false →
       rest = "" ∨ (∃ r, rest = String "." r) →
       _imported_layer (p ++ "." ++ seg ++ rest) p L
       = if bool_decide (seg ∈ L) then seg else "root")
  ∧ (∀ m, m ≠ p → (¬ ∃ r, m = p ++ "." ++ r) →
       _imported_layer m p L = "other").
Proof.
  split; [apply imported_layer_empty |].
  split; [intros m Hm ->; now apply imported_layer_package |].
  split; [intros; now apply imported_layer_under_package |].
  intros; now apply imported_layer_outside.
Qed.

Lemma imported_layer_classifies_witness :
  _imported_layer "pkg" "pkg" {[ "domain"; "adaptor" ]} = "root"
  ∧ _imported_layer "pkg.adaptor.http" "pkg" {[ "domain"; "adaptor" ]} = "adaptor"
  ∧ _imported_layer "requests.api" "pkg" {[ "domain"; "adaptor" ]} = "other".
Proof.
  destruct (imported_layer_classifies "pkg" {[ "domain"; "adaptor" ]})
    as (_ & Hroot & Hunder & Hout).
  split; [apply Hroot; [discriminate | reflexivity] |].
  split.
  - apply (Hunder "adaptor" ".http"); [reflexivity | right; eexists; reflexivity].
  - apply Hout; [discriminate |]. intros [r Hr]. discriminate.
Defined.

(** C2 (as stated) fails when the package name is empty: the empty path
    equals the package name, yet it classifies as [other], because the
    emptiness test comes first. *)
Lemma imported_layer_empty_package_counterexample :
  ¬ (∀ (p : string) (L : gset string) (m : string),
       m = p → _imported_layer m p L = "root").
Proof. intros H. specialize (H "" ∅ "" eq_refl). discriminate. Qed.

(** ** The file classifier *)

Lemma strip_parts_app (root rel : list string) :
  strip_parts root (root ++ rel) = Some rel.
Proof.
  induction root as [|r root IH]; simpl; [now destruct rel |].
  now rewrite bool_decide_eq_true_2.
Qed.

Lemma relative_to_joinpath (root : Path) (rel : list string) :
  relative_to (joinpath root rel) root = inr rel.
Proof. unfold relative_to, joinpath. simpl. now rewrite strip_parts_app. Qed.

(** A file directly in the root is in layer [root]. *)
Lemma file_layer_top_level (root : Path) (name : string) (L : gset string) :
  _file_layer root (joinpath root [name]) L = inr "root".
Proof. unfold _file_layer. now rewrite relative_to_joinpath. Qed.

(** A file in a directory is in the layer its top directory names, or
    in [other]. *)
Lemma file_layer_nested (root : Path) (top : string) (rest : list string)
    (L : gset string) :
  rest ≠ [] →
  _file_layer root (joinpath root (top :: rest)) L
  = inr (if bool_decide (top ∈ L) then top else "other").
Proof.
  intros Hrest. unfold _file_layer. rewrite relative_to_joinpath.
  rewrite bool_decide_eq_false_2; [now destruct (bool_decide (top ∈ L)) |].
  destruct rest; simpl; congruence.
Qed.

(** Discovered files always classify. *)
Lemma file_layer_discovered (root : Path) (rel : string * list string)
    (L : gset string) :
  ∃ layer, _file_layer root (joinpath root (rel.1 :: rel.2)) L = inr layer.
Proof.
  destruct rel as [top [|x rest]]; simpl.
  - eexists. apply file_layer_top_level.
  - eexists. now apply file_layer_nested.
Qed.

(** ** The per-file check *)

Section PerFile.

Context (fs : FileSystem) (root_dir : Path) (package_name : string).
Context (layer_names : gset string) (forbid : gmap string (gset string)).

Lemma check_import_spec (fp : Path) (layer : string)
    (acc : list ImportViolation) (ref : ImportRef) :
  check_import fp layer package_name layer_names forbid acc ref
  = (acc ++ option_list
              (import_violation fp layer package_name layer_names forbid ref))%list.
Proof.
  destruct ref as [[m l] c]. unfold check_import, import_violation.
  destruct (reserved _); [now rewrite app_nil_r |].
  destruct (forbid !! layer) as [ds|]; [| now rewrite app_nil_r].
  case_bool_decide as Hempty.
  - subst ds. rewrite bool_decide_eq_false_2 by set_solver.
    now rewrite app_nil_r.
  - case_bool_decide; simpl; [reflexivity | now rewrite app_nil_r].
Qed.

Lemma fold_check_import (fp : Path) (layer : string) (refs : list ImportRef)
    (acc : list ImportViolation) :
  fold_left (check_import fp layer package_name layer_names forbid) refs acc
  = (acc ++ omap (import_violation fp layer package_name layer_names forbid)
              refs)%list.
Proof.
  revert acc. induction refs as [|ref refs IH]; intros acc; simpl.
  - now rewrite app_nil_r.
  - rewrite IH, check_import_spec, <- app_assoc. f_equal.
    now destruct (import_violation _ _ _ _ _ ref).
Qed.

(** The run of the per-file check, case by case. *)
Lemma violations_for_file_run (fp : Path) (w : World) :
  _violations_for_file fs root_dir fp package_name layer_names forbid w
  = match _file_layer root_dir fp layer_names with
    | inl e => (inl e, w)
    | inr layer =>
        if reserved layer then (inr [], w)
        else (match raised (fs_parse fs fp) with
              | Some e => inl e
              | None =>
                  inr (parse_violations fp layer package_name layer_names
                         forbid (fs_parse fs fp))
              end,
              after_read w fp)
    end.
Proof.
  unfold _violations_for_file, bind, lift.
  destruct (_file_layer root_dir fp layer_names) as [e|layer]; [reflexivity |].
  unfold ret at 1. destruct (reserved layer); [reflexivity |].
  unfold read_and_parse, after_read. destruct (fs_parse fs fp); simpl.
  - unfold ret. now rewrite fold_check_import.
  - reflexivity.
  - reflexivity.
Qed.

(** The same, through the pure views: what the check returns or raises,
    and whether it read the file. *)
Lemma violations_for_file_result (fp : Path) (w : World) :
  _violations_for_file fs root_dir fp package_name layer_names forbid w
  = (match file_raises fs root_dir layer_names fp with
     | Some e => inl e
     | None =>
         inr (file_violations fs root_dir package_name layer_names forbid fp)
     end,
     if checkable root_dir layer_names fp then after_read w fp else w).
Proof.
  rewrite violations_for_file_run.
  unfold file_raises, file_violations, checkable.
  destruct (_file_layer root_dir fp layer_names) as [e|layer]; [reflexivity |].
  destruct (reserved layer); reflexivity.
Qed.

Lemma violations_for_file_ok (fp : Path) (w w' : World)
    (vs : list ImportViolation) :
  _violations_for_file fs root_dir fp package_name layer_names forbid w
  = (inr vs, w') →
  vs = file_violations fs root_dir package_name layer_names forbid fp.
Proof.
  rewrite violations_for_file_result.
  destruct (file_raises fs root_dir layer_names fp); congruence.
Qed.

Lemma import_violation_Some (fp : Path) (layer : string) (ref : ImportRef)
    (v : ImportViolation) :
  import_violation fp layer package_name layer_names forbid ref = Some v ↔
  let B := _imported_layer ref.1.1 package_name layer_names in
  v = mkViolation fp layer ref.1.1 B ref.1.2 ref.2 forbidden_reason
  ∧ reserved B = false
  ∧ ∃ ds, forbid !! layer = Some ds ∧ B ∈ ds.
Proof.
  destruct ref as [[m l] c]. unfold import_violation. simpl.
  destruct (reserved _) eqn:HB.
  - split; [discriminate | intros (_ & ? & _); discriminate].
  - destruct (forbid !! layer) as [ds|].
    + case_bool_decide as Hin.
      * split; [intros [= <-]; eauto |]. now intros (-> & _).
      * split; [discriminate |]. intros (_ & _ & ds' & [= <-] & ?). contradiction.
    + split; [discriminate |]. intros (_ & _ & ds' & ? & _). discriminate.
Qed.

(** Every violation of a file names that file and its layer. *)
Lemma parse_violations_file (fp : Path) (layer : string) (parsed : parse_result)
    (v : ImportViolation) :
  v ∈ parse_violations fp layer package_name layer_names forbid parsed →
  file_path v = fp ∧ file_layer v = layer.
Proof.
  destruct parsed as [tree|ln off msg|e]; simpl.
  - rewrite list_elem_of_omap. intros (ref & _ & Hv).
    apply import_violation_Some in Hv as (-> & _). auto.
  - rewrite list_elem_of_singleton. intros ->. auto.
  - now rewrite elem_of_nil.
Qed.

Lemma file_violations_file (fp : Path) (v : ImportViolation) :
  v ∈ file_violations fs root_dir package_name layer_names forbid fp →
  file_path v = fp.
Proof.
  unfold file_violations.
  destruct (_file_layer root_dir fp layer_names) as [e|layer];
    [now rewrite elem_of_nil |].
  destruct (reserved layer); [now rewrite elem_of_nil |].
  intros H. now apply parse_violations_file in H.
Qed.

End PerFile.

(** ** The scan *)

Section Scan.

Context (fs : FileSystem) (root_dir : Path) (package_name : string).
Context (layer_names : gset string) (forbid : gmap string (gset string)).

#[local] Abbreviation scan :=
  (scan_loop fs root_dir package_name layer_names forbid).
#[local] Abbreviation check fp :=
  (_violations_for_file fs root_dir fp package_name layer_names forbid).
#[local] Abbreviation found :=
  (file_violations fs root_dir package_name layer_names forbid).

Lemma scan_loop_cons (fp : Path) (files : list Path)
    (acc : list ImportViolation) (w : World) :
  scan (fp :: files) acc w
  = match check fp w with
    | (inl e, w') => (inl e, w')
    | (inr vs, w') => scan files (acc ++ vs) w'
    end.
Proof. reflexivity. Qed.

(** A scan that completes has collected the violations of every file,
    in discovery order. *)
Lemma scan_loop_ok (files : list Path) (acc vs : list ImportViolation)
    (w w' : World) :
  scan files acc w = (inr vs, w') → vs = (acc ++ flat_map found files)%list.
Proof.
  revert acc w. induction files as [|fp files IH]; intros acc w.
  - simpl. unfold ret. intros [= <- <-]. now rewrite app_nil_r.
  - rewrite scan_loop_cons.
    destruct (check fp w) as [[e|vs0] w0] eqn:E; [discriminate |].
    intros H. apply IH in H as ->. rewrite <- app_assoc.
    now rewrite (violations_for_file_ok _ _ _ _ _ _ _ _ _ E).
Qed.

(** A scan that completes met no exception. *)
Lemma scan_loop_ok_quiet (files : list Path) (acc vs : list ImportViolation)
    (w w' : World) :
  scan files acc w = (inr vs, w') →
  Forall (λ fp, file_raises fs root_dir layer_names fp = None) files.
Proof.
  revert acc w. induction files as [|fp files IH]; intros acc w.
  - constructor.
  - rewrite scan_loop_cons, violations_for_file_result.
    destruct (file_raises fs root_dir layer_names fp) eqn:E; [discriminate |].
    intros H. constructor; [assumption | eauto].
Qed.

(** Over files whose check raises nothing the scan completes; it reads
    exactly the files of declared layers. *)
Lemma scan_loop_total (files : list Path) (acc : list ImportViolation)
    (w : World) :
  Forall (λ fp, file_raises fs root_dir layer_names fp = None) files →
  scan files acc w
  = (inr (acc ++ flat_map found files)%list,
     mkWorld (reads w ++ filter (λ fp, checkable root_dir layer_names fp) files)
       (stdout w)).
Proof.
  intros Hall. revert acc w.
  induction Hall as [|fp files Hfp _ IH]; intros acc w.
  - simpl. unfold ret. rewrite !app_nil_r. now destruct w.
  - rewrite scan_loop_cons, violations_for_file_result, Hfp, IH.
    cbn [flat_map]. rewrite filter_cons.
    destruct (checkable root_dir layer_names fp); simpl;
      now rewrite <- !app_assoc.
Qed.

(** The first file whose check raises ends the scan: the files before
    it have been checked, the ones after it are not looked at, and what
    was collected is lost. *)
Lemma scan_loop_abort (pre post : list Path) (fp : Path) (e : exn)
    (acc : list ImportViolation) (w : World) :
  Forall (λ fp, file_raises fs root_dir layer_names fp = None) pre →
  file_raises fs root_dir layer_names fp = Some e →
  scan (pre ++ fp :: post)%list acc w
  = (inl e,
     mkWorld (reads w ++ filter (λ fp, checkable root_dir layer_names fp)
                           (pre ++ [fp])%list)
       (stdout w)).
Proof.
  intros Hpre Hfp. revert acc w.
  induction Hpre as [|g pre Hg _ IH]; intros acc w.
  - simpl app. rewrite scan_loop_cons, violations_for_file_result, Hfp.
    rewrite filter_cons, filter_nil.
    destruct (checkable root_dir layer_names fp); simpl; [reflexivity |].
    rewrite app_nil_r. now destruct w.
  - simpl app. rewrite scan_loop_cons, violations_for_file_result, Hg, IH.
    rewrite (filter_cons _ g).
    destruct (checkable root_dir layer_names g); simpl;
      [now rewrite <- !app_assoc | reflexivity].
Qed.

End Scan.

Lemma iter_python_files_classify (fs : FileSystem) (root_dir : Path)
    (include_tests : bool) (L : gset string) :
  Forall (λ fp, ∃ layer, _file_layer root_dir fp L = inr layer)
    (_iter_python_files fs root_dir include_tests).
Proof.
  unfold _iter_python_files. apply Forall_forall. intros fp Hin.
  apply list_elem_of_filter in Hin as [_ Hin].
  apply list_elem_of_fmap in Hin as (rel & -> & _).
  apply file_layer_discovered.
Qed.

(** The check of a file that classifies raises what reading and parsing
    it raises, when the file is read. *)
Lemma file_raises_classified (fs : FileSystem) (root_dir fp : Path)
    (L : gset string) :
  (∃ layer, _file_layer root_dir fp L = inr layer) →
  file_raises fs root_dir L fp
  = if checkable root_dir L fp then raised (fs_parse fs fp) else None.
Proof.
  intros [layer H]. unfold file_raises, checkable. rewrite H.
  now destruct (reserved layer).
Qed.

Lemma raised_None (parsed : parse_result) :
  raised parsed = None ↔ ∀ e, parsed ≠ Uncaught e.
Proof.
  destruct parsed; simpl; split; try congruence; try discriminate.
  intros H. now destruct (H e).
Qed.

Lemma scan_quiet_no_raise (fs : FileSystem) (root_dir : Path)
    (L : gset string) (files : list Path) :
  Forall (λ fp, ∃ layer, _file_layer root_dir fp L = inr layer) files →
  scan_quiet fs root_dir L files
  ↔ Forall (λ fp, file_raises fs root_dir L fp = None) files.
Proof.
  intros Hall. unfold scan_quiet. rewrite !Forall_forall in *. split.
  - intros Hq fp Hfp. rewrite file_raises_classified by auto.
    destruct (checkable root_dir L fp) eqn:E; [| reflexivity].
    apply raised_None. intros e. now apply Hq.
  - intros Hn fp e Hfp Hc. specialize (Hn fp Hfp).
    rewrite file_raises_classified, Hc in Hn by auto.
    now apply raised_None.
Qed.

(** [collect], up to the loop. *)
Lemma collect_unfold (args : Args) (fs : FileSystem) (w : World) :
  collect args fs w
  = if root_ok args fs then
      match effective_forbid (arg_forbid args) with
      | inl e => (inl e, w)
      | inr forbid =>
          scan_loop fs (arg_root args) (package_name_of args)
            (layer_names_of args) forbid
            (_iter_python_files fs (arg_root args) (arg_include_tests args))
            [] w
      end
    else (inl (SystemExit_msg ("--root must be an existing directory: "
                               ++ path_str (arg_root args))), w).
Proof.
  unfold collect, root_ok.
  destruct (fs_exists fs (arg_root args)); simpl; [| reflexivity].
  destruct (fs_is_dir fs (arg_root args)); simpl; [| reflexivity].
  unfold bind, lift.
  destruct (effective_forbid (arg_forbid args)) as [e|forbid]; reflexivity.
Qed.

(** [collect] when no file that is read raises. *)
Lemma collect_run (args : Args) (fs : FileSystem) (w : World) :
  scan_quiet fs (arg_root args) (layer_names_of args)
    (_iter_python_files fs (arg_root args) (arg_include_tests args)) →
  collect args fs w
  = if root_ok args fs then
      match effective_forbid (arg_forbid args) with
      | inl e => (inl e, w)
      | inr forbid =>
          let files :=
            _iter_python_files fs (arg_root args) (arg_include_tests args) in
          (inr (flat_map
                  (file_violations fs (arg_root args) (package_name_of args)
                     (layer_names_of args) forbid) files),
           mkWorld
             (reads w ++ filter (λ fp, checkable (arg_root args)
                                         (layer_names_of args) fp) files)
             (stdout w))
      end
    else (inl (SystemExit_msg ("--root must be an existing directory: "
                               ++ path_str (arg_root args))), w).
Proof.
  intros Hq. rewrite collect_unfold.
  destruct (root_ok args fs); [| reflexivity].
  destruct (effective_forbid (arg_forbid args)) as [e|forbid]; [reflexivity |].
  cbv zeta. rewrite scan_loop_total; [reflexivity |].
  apply scan_quiet_no_raise; [apply iter_python_files_classify | assumption].
Qed.

(** A [collect] that returns had an accepted configuration and met no
    exception. *)
Lemma collect_inv (args : Args) (fs : FileSystem) (w w1 : World)
    (all : list ImportViolation) :
  collect args fs w = (inr all, w1) →
  root_ok args fs = true
  ∧ (∃ forbid, effective_forbid (arg_forbid args) = inr forbid)
  ∧ scan_quiet fs (arg_root args) (layer_names_of args)
      (_iter_python_files fs (arg_root args) (arg_include_tests args)).
Proof.
  rewrite collect_unfold.
  destruct (root_ok args fs); [| discriminate].
  destruct (effective_forbid (arg_forbid args)) as [e|forbid]; [discriminate |].
  intros H. split; [reflexivity |]. split; [eauto |].
  apply scan_quiet_no_raise; [apply iter_python_files_classify |].
  eapply scan_loop_ok_quiet. exact H.
Qed.

Lemma reserved_true (layer : string) :
  reserved layer = true ↔ layer = "root" ∨ layer = "other".
Proof.
  unfold reserved. rewrite orb_true_iff, !bool_decide_eq_true. reflexivity.
Qed.

Lemma reserved_false (layer : string) :
  reserved layer = false ↔ layer ≠ "root" ∧ layer ≠ "other".
Proof.
  unfold reserved. rewrite orb_false_iff, !bool_decide_eq_false. reflexivity.
Qed.

(** ** The rule engine *)

(** C1: in a scanned file of layer [A], for an import reference of
    layer [B]: when neither is reserved, the violation carrying the
    forbidden-direction reason is produced exactly when the mapping has
    an entry for [A] that contains [B]; with no entry for [A], or with
    [A] or [B] being [root] or [other], nothing is produced for that
    import; and whatever is produced for it is that violation. *)
Theorem forbidden_import_rule (fs : FileSystem) (root_dir fp : Path)
    (package_name : string) (layer_names : gset string)
    (forbid : gmap string (gset string)) (w w' : World)
    (vs : list ImportViolation) (tree : ast) (A m : string) (l c : Z) :
  _violations_for_file fs root_dir fp package_name layer_names forbid w
  = (inr vs, w') →
  _file_layer root_dir fp layer_names = inr A →
  fs_parse fs fp = Parsed tree →
  (m, l, c) ∈ _iter_imports tree →
  let B := _imported_layer m package_name layer_names in
  let v := mkViolation fp A m B l c
             "Forbidden import direction by configured layer rules." in
  (A ≠ "root" ∧ A ≠ "other" → B ≠ "root" ∧ B ≠ "other" →
     (v ∈ vs ↔ ∃ ds, forbid !! A = Some ds ∧ B ∈ ds))
  ∧ (forbid !! A = None → ¬ ∃ v', v' ∈ vs ∧ from_import (m, l, c) v')
  ∧ ((A = "root" ∨ A = "other") ∨ (B = "root" ∨ B = "other") →
       ¬ ∃ v', v' ∈ vs ∧ from_import (m, l, c) v')
  ∧ (∀ v', v' ∈ vs → from_import (m, l, c) v' → v' = v).
Proof.
  intros Hrun HA Hparse Href B v.
  rewrite violations_for_file_run, HA, Hparse in Hrun.
  assert (Hvs : ∀ v', v' ∈ vs → from_import (m, l, c) v' →
            v' = v ∧ reserved A = false ∧ reserved B = false
            ∧ ∃ ds, forbid !! A = Some ds ∧ B ∈ ds).
  { intros v' Hv' Hfrom. destruct (reserved A) eqn:EA.
    - injection Hrun as <- _. now apply elem_of_nil in Hv'.
    - injection Hrun as <- _. simpl in Hv'.
      apply list_elem_of_omap in Hv' as ([[m' l'] c'] & _ & Hv').
      apply import_violation_Some in Hv' as (-> & HB & Hds).
      unfold from_import in Hfrom. simpl in *.
      injection Hfrom as -> -> ->. auto. }
  repeat split.
  - intros Hv. destruct (Hvs v Hv eq_refl) as (_ & _ & _ & Hds). exact Hds.
  - intros Hds. destruct H as [? ?], H0 as [? ?].
    assert (reserved A = false) as EA by now apply reserved_false.
    assert (reserved B = false) as EB by now apply reserved_false.
    rewrite EA in Hrun. injection Hrun as <- _. simpl.
    apply list_elem_of_omap. exists (m, l, c). split; [assumption |].
    apply import_violation_Some. simpl. auto.
  - intros Hnone (v' & Hv' & Hfrom).
    destruct (Hvs v' Hv' Hfrom) as (_ & _ & _ & ds & Hds & _). congruence.
  - intros Hres (v' & Hv' & Hfrom).
    destruct (Hvs v' Hv' Hfrom) as (_ & EA & EB & _).
    apply reserved_false in EA, EB. tauto.
  - intros v' Hv' Hfrom. now destruct (Hvs v' Hv' Hfrom).
Qed.

Lemma forbidden_import_rule_witness :
  let v := mkViolation Ex.domain_a "domain" "pkg.adaptor.http" "adaptor" 1 0
             "Forbidden import direction by configured layer rules." in
  v ∈ [v; mkViolation Ex.domain_a "domain" "pkg.service.api" "service" 1 0
            "Forbidden import direction by configured layer rules."]
  ↔ ∃ ds, default_forbid !! "domain" = Some ds ∧ "adaptor" ∈ ds.
Proof.
  refine (proj1 (forbidden_import_rule Ex.fs Ex.root Ex.domain_a "pkg" Ex.layers
                   default_forbid Ex.w0 (after_read Ex.w0 Ex.domain_a) _ Ex.tree
                   "domain" "pkg.adaptor.http" 1 0 _ _ _ _) _ _).
  - vm_compute. reflexivity.
  - vm_compute. reflexivity.
  - reflexivity.
  - vm_compute. apply list_elem_of_here.
  - split; discriminate.
  - vm_compute. split; discriminate.
Defined.

(** ** Files outside the declared layers *)

Lemma elem_of_flat_map {A B} (f : A → list B) (l : list A) (x : B) :
  x ∈ flat_map f l ↔ ∃ y, y ∈ l ∧ x ∈ f y.
Proof.
  rewrite list_elem_of_In, in_flat_map. split.
  - intros (y & Hy & Hx). exists y. now rewrite !list_elem_of_In.
  - intros (y & Hy & Hx). exists y. now rewrite <- !list_elem_of_In.
Qed.

(** C7: a discovered file whose top directory is not a declared layer
    is in layer [other]; whatever the file system holds for it, the
    check returns no violation without reading the file, and no
    violation of a completed scan names that file. *)
Theorem undeclared_directory_never_reported (fs : FileSystem) (root_dir : Path)
    (top : string) (rest : list string) (package_name : string)
    (layer_names : gset string) (forbid : gmap string (gset string)) :
  rest ≠ [] →
  top ∉ layer_names →
  let fp := joinpath root_dir (top :: rest) in
  _file_layer root_dir fp layer_names = inr "other"
  ∧ (∀ w, _violations_for_file fs root_dir fp package_name layer_names forbid w
          = (inr [], w))
  ∧ (∀ files w vs w',
       scan_loop fs root_dir package_name layer_names forbid files [] w
       = (inr vs, w') →
       ∀ v, v ∈ vs → file_path v ≠ fp).
Proof.
  intros Hrest Htop fp.
  assert (Hlayer : _file_layer root_dir fp layer_names = inr "other").
  { unfold fp. rewrite file_layer_nested by assumption.
    now rewrite bool_decide_eq_false_2. }
  split; [assumption |]. split.
  - intros w. now rewrite violations_for_file_run, Hlayer.
  - intros files w vs w' Hscan v Hv Hfp.
    apply scan_loop_ok in Hscan as ->. simpl in Hv.
    apply elem_of_flat_map in Hv as (g & _ & Hg).
    pose proof (file_violations_file _ _ _ _ _ _ _ Hg) as Heq.
    rewrite Hfp in Heq. subst g.
    unfold file_violations in Hg. rewrite Hlayer in Hg. simpl in Hg.
    now apply elem_of_nil in Hg.
Qed.

Lemma undeclared_directory_never_reported_witness :
  _file_layer Ex.root Ex.scripts_c Ex.layers = inr "other"
  ∧ _violations_for_file Ex.fs Ex.root Ex.scripts_c "pkg" Ex.layers
      default_forbid Ex.w0 = (inr [], Ex.w0).
Proof.
  destruct (undeclared_directory_never_reported Ex.fs Ex.root "scripts"
              ["c.py"] "pkg" Ex.layers default_forbid) as (H1 & H2 & _).
  - discriminate.
  - intros H. apply (bool_decide_pack _) in H. vm_compute in H. exact H.
  - split; [exact H1 | exact (H2 Ex.w0)].
Defined.

(** ** The import walk *)

Lemma alias_nodes_size (names : list alias) :
  list_sum (map ast_size (map AliasNode names)) = length names.
Proof. induction names; simpl; auto. Qed.

Lemma alias_nodes_subtrees (names : list alias) :
  flat_map subtrees (map AliasNode names) = map AliasNode names.
Proof. induction names; simpl; [reflexivity | now f_equal]. Qed.

Lemma ast_size_children (t : ast) :
  ast_size t = S (list_sum (map ast_size (iter_child_nodes t))).
Proof. destruct t; simpl; now rewrite ?alias_nodes_size. Qed.

Lemma subtrees_children (t : ast) :
  subtrees t = t :: flat_map subtrees (iter_child_nodes t).
Proof. destruct t; simpl; now rewrite ?alias_nodes_subtrees. Qed.

Lemma list_sum_sizes_app (q1 q2 : list ast) :
  list_sum (map ast_size (q1 ++ q2))
  = (list_sum (map ast_size q1) + list_sum (map ast_size q2))%nat.
Proof. now rewrite map_app, list_sum_app. Qed.

(** With fuel for every node waiting in the queue or below it, the
    walk yields each of these nodes once. *)
Lemma walk_queue_complete (fuel : nat) (todo : list ast) :
  (list_sum (map ast_size todo) ≤ fuel)%nat →
  walk_queue fuel todo ≡ₚ flat_map subtrees todo.
Proof.
  revert todo. induction fuel as [|fuel IH]; intros todo Hfuel.
  - destruct todo as [|node rest]; [reflexivity |].
    simpl in Hfuel. rewrite ast_size_children in Hfuel. lia.
  - destruct todo as [|node rest]; [reflexivity |].
    cbn [walk_queue flat_map]. rewrite subtrees_children. simpl.
    apply Permutation_cons; [reflexivity |].
    rewrite IH.
    + rewrite flat_map_app. apply Permutation_app_comm.
    + rewrite list_sum_sizes_app. simpl in Hfuel.
      rewrite ast_size_children in Hfuel. lia.
Qed.

Lemma walk_complete (tree : ast) : walk tree ≡ₚ subtrees tree.
Proof.
  unfold walk. rewrite walk_queue_complete by (simpl; lia).
  simpl. now rewrite app_nil_r.
Qed.

Lemma iter_imports_nodes (tree : ast) :
  _iter_imports tree ≡ₚ flat_map node_imports (subtrees tree).
Proof. unfold _iter_imports. apply Permutation_flat_map, walk_complete. Qed.

(** C9: the references the parser yields are, up to order, those of
    the import statements anywhere in the tree: an [import] statement
    gives one reference per name, each with the statement's line and
    column; a from-import with a module gives the single reference keyed
    on that module; a from-import without one gives none; no other node
    gives any. *)
Theorem iter_imports_per_statement (tree : ast) :
  _iter_imports tree ≡ₚ flat_map node_imports (subtrees tree)
  ∧ (∀ names l c,
       node_imports (Import names l c) = map (λ a, (alias_name a, l, c)) names
       ∧ length (node_imports (Import names l c)) = length names)
  ∧ (∀ X names level l c,
       node_imports (ImportFrom (Some X) names level l c) = [(X, l, c)])
  ∧ (∀ names level l c, node_imports (ImportFrom None names level l c) = [])
  ∧ (∀ a, node_imports (AliasNode a) = [])
  ∧ (∀ children, node_imports (Node children) = []).
Proof.
  split; [apply iter_imports_nodes |].
  repeat split; simpl. apply length_map.
Qed.

Example iter_imports_example :
  _iter_imports Ex.tree
  = [("pkg.adaptor.http", 1, 0); ("pkg.service.api", 1, 0); ("pkg", 2, 0);
     ("os", 5, 0)]%Z.
Proof. reflexivity. Qed.

(** ** Imports of the package itself *)

(** C10: a statement [from <package> import <name>] is recorded under
    the package name itself, which classifies as [root]; so whatever the
    imported names and the forbidden mapping are, the per-file check
    reports nothing for it: no violation of the file has the package
    name as its imported module. *)
Theorem from_package_import_unreported (fs : FileSystem) (root_dir fp : Path)
    (package_name : string) (layer_names : gset string)
    (forbid : gmap string (gset string)) (tree : ast) (names : list alias)
    (level l c : Z) (w w' : World) (vs : list ImportViolation) :
  package_name ≠ "" →
  fs_parse fs fp = Parsed tree →
  ImportFrom (Some package_name) names level l c ∈ subtrees tree →
  _violations_for_file fs root_dir fp package_name layer_names forbid w
  = (inr vs, w') →
  (package_name, l, c) ∈ _iter_imports tree
  ∧ _imported_layer package_name package_name layer_names = "root"
  ∧ (∀ A, import_violation fp A package_name layer_names forbid
            (package_name, l, c) = None)
  ∧ ∀ v, v ∈ vs → imported_module v ≠ package_name.
Proof.
  intros Hpkg Hparse Hnode Hrun.
  pose proof (imported_layer_package package_name layer_names Hpkg) as Hroot.
  split.
  { rewrite iter_imports_nodes. apply elem_of_flat_map.
    eexists. split; [exact Hnode |]. simpl. apply list_elem_of_here. }
  split; [assumption |]. split.
  { intros A. unfold import_violation. now rewrite Hroot. }
  intros v Hv Hmod.
  rewrite violations_for_file_run, Hparse in Hrun.
  destruct (_file_layer root_dir fp layer_names) as [e|A]; [discriminate |].
  destruct (reserved A).
  - injection Hrun as <- _. now apply elem_of_nil in Hv.
  - injection Hrun as <- _. simpl in Hv.
    apply list_elem_of_omap in Hv as ([[m' l'] c'] & _ & Hv).
    apply import_violation_Some in Hv as (-> & HB & _).
    simpl in *. subst m'. now rewrite Hroot in HB.
Qed.

Lemma from_package_import_unreported_witness :
  ("pkg", 2%Z, 0%Z) ∈ _iter_imports Ex.tree
  ∧ _imported_layer "pkg" "pkg" Ex.layers = "root"
  ∧ ∀ v,
      v ∈ [mkViolation Ex.domain_a "domain" "pkg.adaptor.http" "adaptor" 1 0
             forbidden_reason;
           mkViolation Ex.domain_a "domain" "pkg.service.api" "service" 1 0
             forbidden_reason] →
      imported_module v ≠ "pkg".
Proof.
  destruct (from_package_import_unreported Ex.fs Ex.root Ex.domain_a "pkg"
              Ex.layers default_forbid Ex.tree [mkAlias "adaptor" None] 0 2 0
              Ex.w0 (after_read Ex.w0 Ex.domain_a)
              [mkViolation Ex.domain_a "domain" "pkg.adaptor.http" "adaptor" 1 0
                 forbidden_reason;
               mkViolation Ex.domain_a "domain" "pkg.service.api" "service" 1 0
                 forbidden_reason])
    as (H1 & H2 & _ & H4).
  - discriminate.
  - reflexivity.
  - simpl. do 4 apply list_elem_of_further. apply list_elem_of_here.
  - vm_compute. reflexivity.
  - auto.
Defined.

(** ** Configuration *)

Lemma parse_csv_nonempty (value d : string) : d ∈ _parse_csv value → d ≠ "".
Proof. unfold _parse_csv. rewrite list_elem_of_filter. tauto. Qed.

Lemma list_to_set_empty_inv (l : list string) :
  list_to_set (C := gset string) l = ∅ ↔ l = [].
Proof.
  split; [| now intros ->].
  destruct l as [|x l]; [reflexivity |]. intros H.
  assert (x ∈ (∅ : gset string)) by (rewrite <- H; set_solver).
  set_solver.
Qed.

Lemma malformed_dec (entry : string) : {malformed entry} + {¬ malformed entry}.
Proof.
  unfold malformed.
  destruct (PyStr.contains ":" entry); [| left; auto].
  destruct (decide (entry_source entry = "")); [left; auto |].
  destruct (decide (entry_destinations entry = [])); [left; auto |].
  right. intros [? | [? | ?]]; congruence.
Qed.

(** A well-formed entry merges its destinations into its source's set. *)
Lemma parse_forbid_entry_ok (forbid : gmap string (gset string))
    (entry : string) :
  ¬ malformed entry →
  parse_forbid_entry forbid entry
  = inr (<[entry_source entry :=
             (default ∅ (forbid !! entry_source entry)
              ∪ list_to_set (entry_destinations entry))]> forbid).
Proof.
  intros Hok. unfold malformed in Hok.
  unfold parse_forbid_entry, entry_source, entry_destinations in *.
  destruct (PyStr.contains ":" entry); [| tauto]. simpl.
  destruct (PyStr.split1 ":" entry) as [src0 rest]. simpl in *.
  destruct (PyStr.is_empty (PyStr.strip src0)) eqn:E.
  { apply is_empty_true in E. tauto. }
  rewrite bool_decide_eq_false_2; [reflexivity |].
  rewrite list_to_set_empty_inv. tauto.
Qed.

(** A malformed entry raises [ValueError] with a message that says what
    is wrong and quotes the entry. *)
Lemma parse_forbid_entry_malformed (forbid : gmap string (gset string))
    (entry : string) :
  malformed entry →
  ∃ why, parse_forbid_entry forbid entry
         = inl (ValueError ("Invalid --forbid entry (" ++ why ++ "): " ++ entry)).
Proof.
  intros Hbad. unfold malformed, entry_source, entry_destinations in Hbad.
  unfold parse_forbid_entry.
  destruct (PyStr.contains ":" entry).
  - simpl. destruct (PyStr.split1 ":" entry) as [src0 rest]. simpl in *.
    destruct (PyStr.is_empty (PyStr.strip src0)) eqn:E.
    + exists "empty source layer". reflexivity.
    + destruct Hbad as [? | [Hsrc | Hdst]]; [discriminate | |].
      * apply is_empty_true in Hsrc. congruence.
      * rewrite Hdst. rewrite bool_decide_eq_true_2 by reflexivity.
        exists "empty destinations". reflexivity.
  - exists "expected 'from:to1,to2'". reflexivity.
Qed.

Lemma parse_forbid_loop_ok (entries : list string)
    (forbid forbid' : gmap string (gset string)) :
  parse_forbid_loop entries forbid = inr forbid' →
  Forall (λ e, ¬ malformed e) entries.
Proof.
  revert forbid. induction entries as [|e es IH]; intros forbid H; simpl in H.
  - constructor.
  - destruct (malformed_dec e) as [Hbad|Hok].
    + destruct (parse_forbid_entry_malformed forbid e Hbad) as [why Hwhy].
      now rewrite Hwhy in H.
    + rewrite parse_forbid_entry_ok in H by assumption.
      constructor; [assumption | eauto].
Qed.

(** The first malformed entry stops the loop. *)
Lemma parse_forbid_loop_malformed (entries : list string)
    (forbid : gmap string (gset string)) :
  Exists malformed entries →
  ∃ entry why,
    entry ∈ entries ∧ malformed entry
    ∧ parse_forbid_loop entries forbid
      = inl (ValueError ("Invalid --forbid entry (" ++ why ++ "): " ++ entry)).
Proof.
  revert forbid. induction entries as [|e es IH]; intros forbid Hex.
  - inversion Hex.
  - simpl. destruct (malformed_dec e) as [Hbad|Hok].
    + destruct (parse_forbid_entry_malformed forbid e Hbad) as [why Hwhy].
      exists e, why. rewrite Hwhy. repeat split; [apply list_elem_of_here | assumption].
    + rewrite parse_forbid_entry_ok by assumption.
      inversion Hex as [? ? Hbad | ? ? Hes]; subst; [contradiction |].
      edestruct IH as (entry & why & Hin & Hbad & Heq); [exact Hes |].
      exists entry, why. rewrite Heq.
      repeat split; [now apply list_elem_of_further | assumption].
Qed.

Lemma well_shaped_insert (forbid : gmap string (gset string)) (entry : string) :
  ¬ malformed entry →
  well_shaped forbid →
  well_shaped (<[entry_source entry :=
                   (default ∅ (forbid !! entry_source entry)
                    ∪ list_to_set (entry_destinations entry))]> forbid).
Proof.
  intros Hok Hws src ds Hlook. unfold malformed in Hok.
  apply lookup_insert_Some in Hlook as [[<- <-] | [_ Hlook]]; [| eauto].
  split; [tauto |]. split.
  - destruct (entry_destinations entry) as [|d ds'] eqn:E; [tauto |].
    intros Hempty.
    assert (d ∈ (∅ : gset string)) by (rewrite <- Hempty; set_solver).
    set_solver.
  - intros d [Hd | Hd]%elem_of_union.
    + destruct (forbid !! entry_source entry) as [ds0|] eqn:E; simpl in Hd.
      * destruct (Hws _ _ E) as (_ & _ & Hds0). auto.
      * set_solver.
    + apply elem_of_list_to_set in Hd. now apply parse_csv_nonempty in Hd.
Qed.

Lemma parse_forbid_loop_well_shaped (entries : list string)
    (forbid forbid' : gmap string (gset string)) :
  well_shaped forbid →
  parse_forbid_loop entries forbid = inr forbid' →
  well_shaped forbid'.
Proof.
  revert forbid. induction entries as [|e es IH]; intros forbid Hws H; simpl in H.
  - now injection H as <-.
  - destruct (malformed_dec e) as [Hbad|Hok].
    + destruct (parse_forbid_entry_malformed forbid e Hbad) as [why Hwhy].
      now rewrite Hwhy in H.
    + rewrite parse_forbid_entry_ok in H by assumption.
      eapply IH; [| exact H]. now apply well_shaped_insert.
Qed.

Lemma parse_forbid_loop_dom (entries : list string)
    (forbid forbid' : gmap string (gset string)) :
  parse_forbid_loop entries forbid = inr forbid' → dom forbid ⊆ dom forbid'.
Proof.
  revert forbid. induction entries as [|e es IH]; intros forbid H; simpl in H.
  - now injection H as <-.
  - destruct (malformed_dec e) as [Hbad|Hok].
    + destruct (parse_forbid_entry_malformed forbid e Hbad) as [why Hwhy].
      now rewrite Hwhy in H.
    + rewrite parse_forbid_entry_ok in H by assumption.
      apply IH in H. rewrite dom_insert in H. set_solver.
Qed.

(** Explicit rules never produce the empty mapping. *)
Lemma parse_forbid_entries_nonempty (entries : list string)
    (forbid : gmap string (gset string)) :
  entries ≠ [] → _parse_forbid_entries entries = inr forbid → forbid ≠ ∅.
Proof.
  unfold _parse_forbid_entries. destruct entries as [|e es]; [congruence |].
  intros _ H. simpl in H.
  destruct (malformed_dec e) as [Hbad|Hok].
  - destruct (parse_forbid_entry_malformed ∅ e Hbad) as [why Hwhy].
    now rewrite Hwhy in H.
  - rewrite parse_forbid_entry_ok in H by assumption.
    apply parse_forbid_loop_dom in H. rewrite dom_insert in H.
    intros ->. rewrite dom_empty in H. set_solver.
Qed.

Lemma default_forbid_well_shaped : well_shaped default_forbid.
Proof.
  assert (Hset : ∀ ds : gset string,
            bool_decide (ds ≠ ∅) && bool_decide ("" ∉ ds) = true →
            ds ≠ ∅ ∧ ∀ d, d ∈ ds → d ≠ "").
  { intros ds [Hne Hno]%andb_prop.
    apply bool_decide_eq_true in Hne, Hno.
    split; [assumption | intros d Hd ->; contradiction]. }
  intros src ds Hlook. unfold default_forbid in Hlook.
  repeat (apply lookup_insert_Some in Hlook as [[<- <-] | [_ Hlook]];
          [split; [discriminate | apply Hset; vm_compute; reflexivity] |]).
  apply lookup_singleton_Some in Hlook as [<- <-].
  split; [discriminate | apply Hset; vm_compute; reflexivity].
Qed.

(** C5 (as amended): when the configuration is built, every [--forbid]
    entry is checked for its shape only: it has a colon, a non-empty
    source and at least one non-empty destination.  So the mapping the
    scan uses has non-empty keys, each with a non-empty set of non-empty
    destinations; its names are not compared with the declared layers. *)
Theorem forbid_entries_shape_checked (entries : list string)
    (forbid : gmap string (gset string)) :
  effective_forbid entries = inr forbid →
  Forall (λ entry, ¬ malformed entry) entries
  ∧ ∀ src ds, forbid !! src = Some ds →
      src ≠ "" ∧ ds ≠ ∅ ∧ ∀ d, d ∈ ds → d ≠ "".
Proof.
  unfold effective_forbid, _parse_forbid_entries.
  destruct (parse_forbid_loop entries ∅) as [e|parsed] eqn:E; [discriminate |].
  intros [= <-]. split; [eapply parse_forbid_loop_ok; exact E |].
  case_bool_decide as Hempty.
  - apply default_forbid_well_shaped.
  - eapply parse_forbid_loop_well_shaped; [| exact E].
    intros src ds Hlook. now rewrite lookup_empty in Hlook.
Qed.

Lemma forbid_entries_shape_checked_witness :
  Forall (λ entry, ¬ malformed entry) ["foo: bar, baz"]
  ∧ ∀ src ds,
      ({[ "foo" := {[ "bar"; "baz" ]} ]} : gmap string (gset string)) !! src
      = Some ds →
      src ≠ "" ∧ ds ≠ ∅ ∧ ∀ d, d ∈ ds → d ≠ "".
Proof.
  apply (forbid_entries_shape_checked ["foo: bar, baz"]).
  vm_compute. reflexivity.
Defined.

(** C5 (as stated) fails: an entry naming undeclared layers is accepted
    and becomes part of the mapping the scan uses. *)
Lemma undeclared_forbid_names_counterexample :
  ∃ forbid,
    effective_forbid ["foo:bar"] = inr forbid
    ∧ forbid !! "foo" = Some {[ "bar" ]}
    ∧ ("foo" ∉ layer_names_of (Ex.args_forbid ["foo:bar"]))
    ∧ ("bar" ∉ layer_names_of (Ex.args_forbid ["foo:bar"]))
    ∧ exit_status (run_script (Ex.args_forbid ["foo:bar"]) Ex.fs) = 1%Z
    ∧ err_message (run_script (Ex.args_forbid ["foo:bar"]) Ex.fs) = None.
Proof.
  exists {[ "foo" := {[ "bar" ]} ]}.
  split; [vm_compute; reflexivity |].
  split; [vm_compute; reflexivity |].
  split; [intros H; apply (bool_decide_pack _) in H; vm_compute in H; exact H |].
  split; [intros H; apply (bool_decide_pack _) in H; vm_compute in H; exact H |].
  split; vm_compute; reflexivity.
Qed.

(** C8: without explicit rules the scan runs under exactly the default
    policy; with explicit rules that parse, it runs under the parsed
    mapping, which is never empty, and not under the default; and rules
    that fail to parse end the run before any scan. *)
Theorem default_policy_only_without_rules (args : Args) (fs : FileSystem)
    (w : World) :
  fs_exists fs (arg_root args) = true →
  fs_is_dir fs (arg_root args) = true →
  let files := _iter_python_files fs (arg_root args) (arg_include_tests args) in
  let scan_under forbid :=
    scan_loop fs (arg_root args) (package_name_of args) (layer_names_of args)
      forbid files [] w in
  (arg_forbid args = [] →
     collect args fs w
     = scan_under {[ "domain" := {[ "dataset"; "adaptor"; "service" ]};
                     "dataset" := {[ "adaptor"; "service" ]};
                     "adaptor" := {[ "dataset"; "service" ]} ]})
  ∧ (∀ forbid,
       arg_forbid args ≠ [] →
       _parse_forbid_entries (arg_forbid args) = inr forbid →
       forbid ≠ ∅ ∧ collect args fs w = scan_under forbid)
  ∧ (∀ e,
       _parse_forbid_entries (arg_forbid args) = inl e →
       collect args fs w = (inl e, w)).
Proof.
  intros Hex Hdir files scan_under.
  assert (Hroot : root_ok args fs = true)
    by (unfold root_ok; now rewrite Hex, Hdir).
  rewrite collect_unfold, Hroot. unfold effective_forbid.
  split; [| split].
  - intros ->. reflexivity.
  - intros forbid Hne Hparse.
    pose proof (parse_forbid_entries_nonempty _ _ Hne Hparse) as Hnonempty.
    split; [assumption |]. rewrite Hparse.
    now rewrite bool_decide_eq_false_2.
  - intros e Hparse. now rewrite Hparse.
Qed.

Lemma default_policy_only_without_rules_witness :
  collect (Ex.args_forbid ["adaptor:adaptor"]) Ex.fs Ex.w0
  = scan_loop Ex.fs Ex.root "pkg" Ex.layers {[ "adaptor" := {[ "adaptor" ]} ]}
      [Ex.domain_a; Ex.adaptor_b; Ex.scripts_c] [] Ex.w0
  ∧ collect Ex.args Ex.fs Ex.w0
    = scan_loop Ex.fs Ex.root "pkg" Ex.layers default_forbid
        [Ex.domain_a; Ex.adaptor_b; Ex.scripts_c] [] Ex.w0.
Proof.
  split.
  - apply (proj1 (proj2 (default_policy_only_without_rules
                           (Ex.args_forbid ["adaptor:adaptor"]) Ex.fs Ex.w0
                           eq_refl eq_refl))).
    + discriminate.
    + vm_compute. reflexivity.
  - apply (proj1 (default_policy_only_without_rules Ex.args Ex.fs Ex.w0
                    eq_refl eq_refl)).
    reflexivity.
Defined.

(** ** Fatal configuration errors *)

Lemma main_error (args : Args) (fs : FileSystem) (w w' : World) (e : exn) :
  collect args fs w = (inl e, w') → main args fs w = (inl e, w').
Proof. intros H. unfold main, bind. now rewrite H. Qed.

(** C6 (as amended): on a fatal configuration error -- the root does
    not exist or is not a directory, or, the root being fine, some
    [--forbid] entry is malformed -- the run reads no file, prints
    nothing on the output stream, leaves a message that names the
    problem on the error stream, and ends with status 1. *)
Theorem configuration_error_aborts (args : Args) (fs : FileSystem) :
  (fs_exists fs (arg_root args) = false ∨ fs_is_dir fs (arg_root args) = false →
     files_read (run_script args fs) = []
     ∧ out_lines (run_script args fs) = []
     ∧ err_message (run_script args fs)
       = Some ("--root must be an existing directory: "
               ++ path_str (arg_root args))
     ∧ exit_status (run_script args fs) = 1%Z)
  ∧ (fs_exists fs (arg_root args) = true → fs_is_dir fs (arg_root args) = true →
     Exists malformed (arg_forbid args) →
     files_read (run_script args fs) = []
     ∧ out_lines (run_script args fs) = []
     ∧ (∃ entry why,
          entry ∈ arg_forbid args ∧ malformed entry
          ∧ err_message (run_script args fs)
            = Some ("ValueError: Invalid --forbid entry (" ++ why ++ "): "
                    ++ entry))
     ∧ exit_status (run_script args fs) = 1%Z).
Proof.
  split.
  - intros Hroot. unfold run_script.
    rewrite (main_error args fs _ (mkWorld [] [])
               (SystemExit_msg ("--root must be an existing directory: "
                                ++ path_str (arg_root args)))).
    + simpl. auto.
    + rewrite collect_unfold. unfold root_ok.
      destruct Hroot as [-> | ->]; [reflexivity |].
      now rewrite andb_false_r.
  - intros Hex Hdir Hbad.
    destruct (parse_forbid_loop_malformed _ ∅ Hbad)
      as (entry & why & Hin & Hmal & Heq).
    unfold run_script.
    rewrite (main_error args fs _ (mkWorld [] [])
               (ValueError ("Invalid --forbid entry (" ++ why ++ "): " ++ entry))).
    + simpl. repeat split; try reflexivity. exists entry, why. auto.
    + rewrite collect_unfold. unfold root_ok. rewrite Hex, Hdir. simpl.
      unfold effective_forbid, _parse_forbid_entries. now rewrite Heq.
Qed.

Lemma configuration_error_aborts_witness :
  files_read (run_script Ex.args Ex.fs_missing) = []
  ∧ out_lines (run_script Ex.args Ex.fs_missing) = []
  ∧ err_message (run_script Ex.args Ex.fs_missing)
    = Some "--root must be an existing directory: pkg"
  ∧ exit_status (run_script Ex.args Ex.fs_missing) = 1%Z.
Proof.
  apply (proj1 (configuration_error_aborts Ex.args Ex.fs_missing)).
  left. reflexivity.
Defined.

(** C6 (as stated) fails: the status of a run that stops on a missing
    root, or on a malformed [--forbid] entry, is 1. *)
Lemma configuration_error_status_counterexample :
  fs_exists Ex.fs_missing (arg_root Ex.args) = false
  ∧ exit_status (run_script Ex.args Ex.fs_missing) = 1%Z
  ∧ malformed "domain"
  ∧ exit_status (run_script (Ex.args_forbid ["domain"]) Ex.fs) = 1%Z.
Proof.
  split; [reflexivity |]. split; [vm_compute; reflexivity |].
  split; [left; reflexivity | vm_compute; reflexivity].
Qed.

(** ** The order of sort keys *)

Lemma str_compare_refl (s : string) : String_as_OT.compare s s = Eq.
Proof.
  destruct (String_as_OT.compare_spec s s) as [_ | H | H]; [reflexivity | |];
    now apply (irreflexivity String_as_OT.lt) in H.
Qed.

Lemma str_compare_eq (s1 s2 : string) :
  String_as_OT.compare s1 s2 = Eq → s1 = s2.
Proof.
  destruct (String_as_OT.compare_spec s1 s2); [auto | discriminate..].
Qed.

Lemma str_compare_antisym (s1 s2 : string) :
  String_as_OT.compare s2 s1 = CompOpp (String_as_OT.compare s1 s2).
Proof.
  destruct (String_as_OT.compare_spec s1 s2) as [-> | H | H]; simpl.
  - apply str_compare_refl.
  - destruct (String_as_OT.compare_spec s2 s1) as [-> | H' | H'];
      [| | reflexivity]; exfalso.
    + now apply (irreflexivity String_as_OT.lt) in H.
    + apply (irreflexivity String_as_OT.lt s1). now transitivity s2.
  - exact H.
Qed.

Lemma str_compare_trans (s1 s2 s3 : string) :
  String_as_OT.compare s1 s2 = Lt → String_as_OT.compare s2 s3 = Lt →
  String_as_OT.compare s1 s3 = Lt.
Proof. apply (transitivity (R := String_as_OT.lt)). Qed.

Lemma key_compare_refl (k : Key) : key_compare k k = Eq.
Proof.
  destruct k as [[s l] c]. simpl.
  now rewrite str_compare_refl, !Z.compare_refl.
Qed.

Lemma key_compare_eq (k1 k2 : Key) : key_compare k1 k2 = Eq → k1 = k2.
Proof.
  destruct k1 as [[s1 l1] c1], k2 as [[s2 l2] c2]. simpl.
  destruct (String_as_OT.compare s1 s2) eqn:Es; try discriminate.
  destruct (l1 ?= l2)%Z eqn:El; try discriminate.
  intros Ec. apply str_compare_eq in Es. apply Z.compare_eq in El, Ec.
  congruence.
Qed.

Lemma key_compare_antisym (k1 k2 : Key) :
  key_compare k2 k1 = CompOpp (key_compare k1 k2).
Proof.
  destruct k1 as [[s1 l1] c1], k2 as [[s2 l2] c2]. simpl.
  rewrite (str_compare_antisym s1 s2), (Z.compare_antisym l1 l2),
    (Z.compare_antisym c1 c2).
  destruct (String_as_OT.compare s1 s2); simpl; try reflexivity.
  destruct (l1 ?= l2)%Z; reflexivity.
Qed.

Lemma key_compare_trans (k1 k2 k3 : Key) :
  key_compare k1 k2 = Lt → key_compare k2 k3 = Lt → key_compare k1 k3 = Lt.
Proof.
  destruct k1 as [[s1 l1] c1], k2 as [[s2 l2] c2], k3 as [[s3 l3] c3]. simpl.
  destruct (String_as_OT.compare s1 s2) eqn:E12; try discriminate;
    destruct (String_as_OT.compare s2 s3) eqn:E23; try discriminate;
    try (apply str_compare_eq in E12; subst s2);
    try (apply str_compare_eq in E23; subst s3);
    rewrite ?str_compare_refl, ?E12, ?E23;
    try (rewrite (str_compare_trans _ _ _ E12 E23)); try reflexivity.
  destruct (l1 ?= l2)%Z eqn:L12; try discriminate;
    destruct (l2 ?= l3)%Z eqn:L23; try discriminate; intros C12 C23;
    rewrite ?Z.compare_eq_iff, ?Z.compare_lt_iff in *; subst;
    repeat match goal with
           | |- context [(?a ?= ?b)%Z] =>
               destruct (Z.compare_spec a b); try lia
           end; reflexivity.
Qed.

Lemma key_ltb_lt (a b : ImportViolation) :
  key_ltb (sort_key a) (sort_key b) = true ↔ key_lt a b.
Proof.
  unfold key_ltb, key_lt.
  destruct (key_compare (sort_key a) (sort_key b)); split; congruence.
Qed.

Lemma key_lt_le (a b : ImportViolation) : key_lt a b → key_le a b.
Proof. unfold key_lt, key_le. congruence. Qed.

Lemma key_not_lt_le (a b : ImportViolation) : ¬ key_lt b a → key_le a b.
Proof.
  unfold key_lt, key_le. rewrite (key_compare_antisym (sort_key a)).
  destruct (key_compare (sort_key a) (sort_key b)); simpl; congruence.
Qed.

Lemma key_le_total (a b : ImportViolation) : key_le a b ∨ key_le b a.
Proof.
  unfold key_le. rewrite (key_compare_antisym (sort_key a)).
  destruct (key_compare (sort_key a) (sort_key b)); simpl;
    [left | left | right]; discriminate.
Qed.

Lemma key_le_antisym (a b : ImportViolation) :
  key_le a b → key_le b a → sort_key a = sort_key b.
Proof.
  unfold key_le. rewrite (key_compare_antisym (sort_key a)).
  destruct (key_compare (sort_key a) (sort_key b)) eqn:E; simpl;
    [intros _ _; now apply key_compare_eq | congruence..].
Qed.

Lemma key_le_trans (a b c : ImportViolation) :
  key_le a b → key_le b c → key_le a c.
Proof.
  unfold key_le. intros Hab Hbc Hac.
  assert (Hca : key_compare (sort_key c) (sort_key a) = Lt)
    by (rewrite key_compare_antisym, Hac; reflexivity).
  destruct (key_compare (sort_key a) (sort_key b)) eqn:E; [| | congruence].
  - apply key_compare_eq in E. rewrite <- E in Hbc.
    rewrite key_compare_antisym, Hca in Hbc. now apply Hbc.
  - apply Hbc. rewrite key_compare_antisym.
    now rewrite (key_compare_trans _ _ _ Hca E).
Qed.

Lemma key_lt_irrefl_eq (a b : ImportViolation) :
  key_lt a b → sort_key a ≠ sort_key b.
Proof.
  unfold key_lt. intros H E. rewrite E, key_compare_refl in H. discriminate.
Qed.

(** ** The sort *)

Lemma insert_sorted_perm (x : ImportViolation) (l : list ImportViolation) :
  insert_sorted x l ≡ₚ x :: l.
Proof.
  induction l as [|y l IH]; simpl; [reflexivity |].
  destruct (key_ltb (sort_key y) (sort_key x)); [| reflexivity].
  rewrite IH. apply perm_swap.
Qed.

Lemma sorted_perm (l : list ImportViolation) : sorted l ≡ₚ l.
Proof.
  induction l as [|x l IH]; simpl; [reflexivity |].
  now rewrite insert_sorted_perm, IH.
Qed.

Lemma insert_sorted_ordered (x : ImportViolation) (l : list ImportViolation) :
  StronglySorted key_le l → StronglySorted key_le (insert_sorted x l).
Proof.
  induction 1 as [|y l Hl IH Hy]; simpl.
  - repeat constructor.
  - destruct (key_ltb (sort_key y) (sort_key x)) eqn:E.
    + constructor; [assumption |].
      rewrite Forall_forall. intros z Hz.
      rewrite insert_sorted_perm in Hz.
      apply elem_of_cons in Hz as [-> | Hz].
      * now apply key_lt_le, key_ltb_lt.
      * rewrite Forall_forall in Hy. auto.
    + assert (Hxy : key_le x y).
      { apply key_not_lt_le. rewrite <- key_ltb_lt. congruence. }
      constructor; [now constructor |].
      constructor; [assumption |].
      eapply Forall_impl; [exact Hy |].
      intros z Hz. now apply key_le_trans with y.
Qed.

Lemma sorted_ordered (l : list ImportViolation) : StronglySorted key_le (sorted l).
Proof.
  induction l as [|x l IH]; simpl; [constructor |].
  now apply insert_sorted_ordered.
Qed.

(** The sort is stable: elements with one key keep their order. *)
Lemma insert_sorted_with_key (k : Key) (x : ImportViolation)
    (l : list ImportViolation) :
  with_key k (insert_sorted x l) = with_key k (x :: l).
Proof.
  unfold with_key. induction l as [|y l IH]; simpl; [reflexivity |].
  destruct (key_ltb (sort_key y) (sort_key x)) eqn:E; [| reflexivity].
  apply key_ltb_lt, key_lt_irrefl_eq in E.
  rewrite (filter_cons _ y), IH, !(filter_cons _ x), !(filter_cons _ y).
  repeat case_decide; congruence.
Qed.

Lemma sorted_with_key (k : Key) (l : list ImportViolation) :
  with_key k (sorted l) = with_key k l.
Proof.
  induction l as [|x l IH]; simpl; [reflexivity |].
  rewrite insert_sorted_with_key. unfold with_key in *.
  now rewrite !(filter_cons _ x), IH.
Qed.

Lemma with_key_head (x : ImportViolation) (l : list ImportViolation) :
  with_key (sort_key x) (x :: l) = x :: with_key (sort_key x) l.
Proof. unfold with_key. now rewrite filter_cons, decide_True. Qed.

Lemma with_key_elem (k : Key) (v : ImportViolation) (l : list ImportViolation) :
  v ∈ with_key k l ↔ sort_key v = k ∧ v ∈ l.
Proof. exact (list_elem_of_filter (λ v, sort_key v = k) l v). Qed.

(** An ordered list is determined by its elements key by key: any two
    stable sorts of one list agree. *)
Lemma ordered_unique (l1 l2 : list ImportViolation) :
  StronglySorted key_le l1 → StronglySorted key_le l2 →
  (∀ k, with_key k l1 = with_key k l2) →
  l1 = l2.
Proof.
  intros H1. revert l2. induction H1 as [|x l1 Hl1 IH Hx]; intros l2 H2 Hkeys.
  - destruct l2 as [|y l2]; [reflexivity |].
    specialize (Hkeys (sort_key y)). rewrite with_key_head in Hkeys.
    discriminate.
  - destruct H2 as [|y l2 Hl2 Hy].
    { specialize (Hkeys (sort_key x)). rewrite with_key_head in Hkeys.
      discriminate. }
    assert (Hxy : key_le y x).
    { assert (Hin : x ∈ with_key (sort_key x) (y :: l2)).
      { rewrite <- Hkeys, with_key_head. apply list_elem_of_here. }
      apply with_key_elem in Hin as [_ Hin].
      apply elem_of_cons in Hin as [-> | Hin].
      - unfold key_le. now rewrite key_compare_refl.
      - rewrite Forall_forall in Hy. auto. }
    assert (Hyx : key_le x y).
    { assert (Hin : y ∈ with_key (sort_key y) (x :: l1)).
      { rewrite Hkeys, with_key_head. apply list_elem_of_here. }
      apply with_key_elem in Hin as [_ Hin].
      apply elem_of_cons in Hin as [-> | Hin].
      - unfold key_le. now rewrite key_compare_refl.
      - rewrite Forall_forall in Hx. auto. }
    pose proof (key_le_antisym _ _ Hyx Hxy) as Hk.
    assert (x = y) as <-.
    { pose proof (Hkeys (sort_key x)) as Hh.
      rewrite with_key_head, Hk, with_key_head in Hh. congruence. }
    f_equal. apply IH; [assumption |].
    intros k. specialize (Hkeys k). unfold with_key in *.
    rewrite !(filter_cons _ x) in Hkeys. case_decide; congruence.
Qed.

Lemma sorted_determined (l1 l2 : list ImportViolation) :
  (∀ k, with_key k l1 = with_key k l2) → sorted l1 = sorted l2.
Proof.
  intros H. apply ordered_unique; try apply sorted_ordered.
  intros k. now rewrite !sorted_with_key.
Qed.

(** ** Discovery order *)

Lemma with_key_nil (k : Key) (l : list ImportViolation) :
  (∀ v, v ∈ l → sort_key v ≠ k) → with_key k l = [].
Proof.
  unfold with_key. induction l as [|x l IH]; intros H; [reflexivity |].
  rewrite filter_cons, decide_False by (apply H, list_elem_of_here).
  apply IH. intros v Hv. apply H. now apply list_elem_of_further.
Qed.

Lemma with_key_app (k : Key) (l1 l2 : list ImportViolation) :
  with_key k (l1 ++ l2) = (with_key k l1 ++ with_key k l2)%list.
Proof. unfold with_key. apply filter_app. Qed.

Section DiscoveryOrder.

Context (found : Path → list ImportViolation).
Context (found_file : ∀ fp v, v ∈ found fp → file_path v = fp).

Lemma with_key_other_file (k : Key) (fp : Path) :
  k.1.1 ≠ path_str fp → with_key k (found fp) = [].
Proof.
  intros Hne. apply with_key_nil. intros v Hv <-.
  apply Hne. unfold sort_key. simpl. now rewrite (found_file _ _ Hv).
Qed.

(** With each path discovered once, the violations of a given key come
    from one file, so they do not depend on the discovery order. *)
Lemma with_key_discovery_order (files1 files2 : list Path) (k : Key) :
  files1 ≡ₚ files2 →
  NoDup (map path_str files1) →
  with_key k (flat_map found files1) = with_key k (flat_map found files2).
Proof.
  induction 1 as [|x l l' Hperm IH|x y l|l l' l'' H1 IH1 H2 IH2]; intros Hnd.
  - reflexivity.
  - simpl. rewrite !with_key_app. f_equal. apply IH.
    simpl in Hnd. now apply NoDup_cons in Hnd as [_ ?].
  - simpl. rewrite !with_key_app.
    simpl in Hnd. apply NoDup_cons in Hnd as [Hy _].
    destruct (decide (k.1.1 = path_str x)) as [Hk|Hk].
    + rewrite (with_key_other_file k y); [reflexivity |].
      rewrite Hk. intros Heq. apply Hy. rewrite <- Heq. apply list_elem_of_here.
    + now rewrite (with_key_other_file k x).
  - rewrite IH1 by assumption. apply IH2.
    assert (Hmap : map path_str l ≡ₚ map path_str l') by now apply Permutation_map.
    now rewrite <- Hmap.
Qed.

End DiscoveryOrder.

Lemma file_violations_same_files (fs fs' : FileSystem) (root_dir : Path)
    (package_name : string) (layer_names : gset string)
    (forbid : gmap string (gset string)) (fp : Path) :
  (∀ p, fs_parse fs' p = fs_parse fs p) →
  file_violations fs' root_dir package_name layer_names forbid fp
  = file_violations fs root_dir package_name layer_names forbid fp.
Proof. intros H. unfold file_violations. now rewrite H. Qed.

Lemma iter_python_files_same_files (fs fs' : FileSystem) (root_dir : Path)
    (include_tests : bool) :
  same_files fs fs' root_dir →
  _iter_python_files fs' root_dir include_tests
  ≡ₚ _iter_python_files fs root_dir include_tests.
Proof.
  intros (_ & _ & _ & Hperm). unfold _iter_python_files.
  apply filter_Permutation, Permutation_map, Hperm.
Qed.

(** ** The report *)

Lemma print_all_run (lines : list string) (w : World) :
  print_all lines w = (inr tt, mkWorld (reads w) (stdout w ++ lines)).
Proof.
  revert w. induction lines as [|line lines IH]; intros w; simpl.
  - unfold ret. rewrite app_nil_r. now destruct w.
  - unfold bind, print. rewrite IH. simpl. now rewrite <- app_assoc.
Qed.

Lemma report_run (all : list ImportViolation) (w : World) :
  report all w
  = match all with
    | [] => (inr 0%Z,
             mkWorld (reads w)
               (stdout w ++ ["OK: no layered-import violations found."]))
    | _ :: _ => (inr 1%Z,
                 mkWorld (reads w)
                   (stdout w ++ "Layered-import violations:"
                               :: map render (sorted all)))
    end.
Proof.
  destruct all as [|v all]; [reflexivity |].
  unfold report, bind, print. rewrite print_all_run. simpl.
  now rewrite <- app_assoc.
Qed.

Lemma sorted_nil_inv (l : list ImportViolation) : sorted l = [] → l = [].
Proof.
  intros H. apply Permutation_nil. now rewrite <- H, sorted_perm.
Qed.

Lemma main_run (args : Args) (fs : FileSystem) (w w1 : World)
    (all : list ImportViolation) :
  collect args fs w = (inr all, w1) → main args fs w = report all w1.
Proof. intros H. unfold main, bind. now rewrite H. Qed.

Lemma collect_stdout (args : Args) (fs : FileSystem) (w w1 : World)
    (all : list ImportViolation) :
  collect args fs w = (inr all, w1) → stdout w1 = stdout w.
Proof.
  intros H. pose proof (collect_inv _ _ _ _ _ H) as (_ & _ & Hq).
  rewrite (collect_run _ _ _ Hq) in H.
  destruct (root_ok args fs); [| discriminate].
  destruct (effective_forbid (arg_forbid args)); [discriminate |].
  cbv zeta in H. now injection H as _ <-.
Qed.

(** The report depends on the collected violations through their
    sorted listing only. *)
Lemma report_same_listing (all all' : list ImportViolation) (w1 w1' : World) :
  sorted all' = sorted all → stdout w1' = stdout w1 →
  (report all' w1').1 = (report all w1).1
  ∧ stdout (report all' w1').2 = stdout (report all w1).2.
Proof.
  intros Hsorted Hout. rewrite !report_run.
  destruct all as [|v all], all' as [|v' all']; simpl.
  - now rewrite Hout.
  - apply sorted_nil_inv in Hsorted. discriminate.
  - symmetry in Hsorted. apply sorted_nil_inv in Hsorted. discriminate.
  - simpl in Hsorted. now rewrite Hsorted, Hout.
Qed.

Lemma collect_same_files (args : Args) (fs fs' : FileSystem) (w w1 : World)
    (all : list ImportViolation) :
  collect args fs w = (inr all, w1) →
  same_files fs fs' (arg_root args) →
  NoDup (map path_str
           (_iter_python_files fs (arg_root args) (arg_include_tests args))) →
  ∃ all' w1', collect args fs' w = (inr all', w1') ∧ sorted all' = sorted all.
Proof.
  intros Hcollect Hsame Hnd.
  pose proof Hsame as (Hex & Hdir & Hparse & _).
  pose proof (collect_inv _ _ _ _ _ Hcollect) as (_ & _ & Hq).
  assert (Hq' : scan_quiet fs' (arg_root args) (layer_names_of args)
                  (_iter_python_files fs' (arg_root args)
                     (arg_include_tests args))).
  { intros fp e Hfp Hc. rewrite Hparse. apply Hq; [| assumption].
    now rewrite <- (iter_python_files_same_files fs fs' _ _ Hsame). }
  rewrite (collect_run _ _ _ Hq) in Hcollect.
  assert (Hroot : root_ok args fs' = root_ok args fs)
    by (unfold root_ok; now rewrite Hex, Hdir).
  destruct (root_ok args fs) eqn:E; [| discriminate].
  destruct (effective_forbid (arg_forbid args)) as [e|forbid] eqn:Ef;
    [discriminate |].
  cbv zeta in Hcollect. injection Hcollect as <- _.
  eexists _, _. split.
  { rewrite (collect_run _ _ _ Hq'), Hroot, Ef. cbv zeta. reflexivity. }
  apply sorted_determined. intros k.
  rewrite (flat_map_ext _ _
             (λ fp, file_violations_same_files fs fs' _ _ _ _ fp Hparse)).
  symmetry. apply with_key_discovery_order.
  - intros fp v. apply file_violations_file.
  - symmetry. now apply iter_python_files_same_files.
  - assumption.
Qed.

(** C3 (as amended): the listing a run prints is the collected
    violations in ascending, not necessarily strict, order of the key
    (file path, line, column), a total preorder; violations with the
    same key keep the order in which they were found; and when no path
    is discovered twice, a file system that lists the same files in
    another order gives the same listing, status and output. *)
Theorem listing_ordered_whatever_discovery_order (args : Args)
    (fs fs' : FileSystem) (w w1 : World) (all : list ImportViolation) :
  collect args fs w = (inr all, w1) →
  same_files fs fs' (arg_root args) →
  NoDup (map path_str
           (_iter_python_files fs (arg_root args) (arg_include_tests args))) →
  (all ≠ [] →
     report all w1
     = (inr 1%Z,
        mkWorld (reads w1)
          (stdout w1 ++ "Layered-import violations:" :: map render (sorted all))))
  ∧ StronglySorted key_le (sorted all)
  ∧ (∀ a b, key_le a b ∨ key_le b a)
  ∧ sorted all ≡ₚ all
  ∧ (∀ k, with_key k (sorted all) = with_key k all)
  ∧ ∃ all' w1',
      collect args fs' w = (inr all', w1')
      ∧ sorted all' = sorted all
      ∧ (main args fs' w).1 = (main args fs w).1
      ∧ stdout (main args fs' w).2 = stdout (main args fs w).2.
Proof.
  intros Hcollect Hsame Hnd.
  split. { intros Hne. rewrite report_run. destruct all; congruence. }
  split; [apply sorted_ordered |].
  split; [apply key_le_total |].
  split; [apply sorted_perm |].
  split; [intros k; apply sorted_with_key |].
  destruct (collect_same_files _ _ _ _ _ _ Hcollect Hsame Hnd)
    as (all' & w1' & Hcollect' & Hsorted).
  exists all', w1'. split; [assumption |]. split; [assumption |].
  rewrite (main_run _ _ _ _ _ Hcollect), (main_run _ _ _ _ _ Hcollect').
  apply report_same_listing; [assumption |].
  now rewrite (collect_stdout _ _ _ _ _ Hcollect),
    (collect_stdout _ _ _ _ _ Hcollect').
Qed.

Lemma listing_ordered_whatever_discovery_order_witness :
  (main Ex.args Ex.fs_reordered Ex.w0).1 = (main Ex.args Ex.fs Ex.w0).1
  ∧ stdout (main Ex.args Ex.fs_reordered Ex.w0).2
    = stdout (main Ex.args Ex.fs Ex.w0).2.
Proof.
  destruct (listing_ordered_whatever_discovery_order Ex.args Ex.fs
              Ex.fs_reordered Ex.w0 (collect Ex.args Ex.fs Ex.w0).2
              (flat_map (file_violations Ex.fs Ex.root "pkg" Ex.layers
                           default_forbid)
                 (_iter_python_files Ex.fs Ex.root false)))
    as (_ & _ & _ & _ & _ & all' & w1' & _ & _ & Hstatus & Hout).
  - vm_compute. reflexivity.
  - repeat split; try reflexivity. simpl.
    exact (Permutation_sym
             (Permutation_rev
                [("domain", ["a.py"]); ("adaptor", ["b.py"]);
                 ("scripts", ["c.py"])])).
  - apply (bool_decide_unpack _). vm_compute. exact I.
  - split; assumption.
Defined.

(** C3 (as stated) fails on strictness: the two names of one [import]
    statement share the statement's line and column, so two distinct
    violations of the listing have the same key and the listing is not
    strictly ascending. *)
Lemma listing_not_strict_counterexample :
  ∃ all w1 v1 v2,
    collect Ex.args Ex.fs Ex.w0 = (inr all, w1)
    ∧ v1 ∈ sorted all ∧ v2 ∈ sorted all
    ∧ v1 ≠ v2
    ∧ sort_key v1 = sort_key v2
    ∧ ¬ StronglySorted key_lt (sorted all).
Proof.
  set (vb := mkViolation Ex.adaptor_b "adaptor" "(parse error)" "other" 3 0
               "SyntaxError: invalid syntax").
  set (v1 := mkViolation Ex.domain_a "domain" "pkg.adaptor.http" "adaptor" 1 0
               forbidden_reason).
  set (v2 := mkViolation Ex.domain_a "domain" "pkg.service.api" "service" 1 0
               forbidden_reason).
  exists [v1; v2; vb], (collect Ex.args Ex.fs Ex.w0).2, v1, v2.
  assert (Hsorted : sorted [v1; v2; vb] = [vb; v1; v2])
    by (vm_compute; reflexivity).
  rewrite Hsorted.
  split; [vm_compute; reflexivity |].
  split; [apply list_elem_of_further, list_elem_of_here |].
  split; [do 2 apply list_elem_of_further; apply list_elem_of_here |].
  split; [discriminate |].
  split; [reflexivity |].
  intros H. apply StronglySorted_inv in H as [Htail _].
  apply StronglySorted_inv in Htail as [_ Hall].
  apply Forall_inv in Hall. vm_compute in Hall. discriminate.
Qed.

(** * Further properties of the script *)

(** ** Comma-separated values *)

Section CsvFacts.

Import PyStr.

Lemma rstrip_idem (s : string) : rstrip (rstrip s) = rstrip s.
Proof.
  induction s as [|a s IH]; [reflexivity |]. simpl.
  destruct (rstrip s) as [|b r] eqn:E.
  - destruct (isspace a) eqn:Ea; simpl; [reflexivity | now rewrite Ea].
  - change (rstrip (String a (String b r))) with
      (match rstrip (String b r) with
       | EmptyString => if isspace a then EmptyString else String a EmptyString
       | String _ _ as r0 => String a r0
       end).
    now rewrite IH.
Qed.

Lemma lstrip_head (s : string) :
  lstrip s = "" ∨ ∃ a r, lstrip s = String a r ∧ isspace a = false.
Proof.
  induction s as [|a s IH]; simpl; [now left |].
  destruct (isspace a) eqn:E; [assumption | right; eauto].
Qed.

Lemma rstrip_head (a : ascii) (r : string) :
  isspace a = false → ∃ r', rstrip (String a r) = String a r'.
Proof.
  intros Ha. simpl. destruct (rstrip r); [rewrite Ha |]; eauto.
Qed.

(** Stripping twice is stripping once. *)
Lemma strip_idem (s : string) : strip (strip s) = strip s.
Proof.
  unfold strip. destruct (lstrip_head s) as [-> | (a & r & -> & Ha)];
    [reflexivity |].
  destruct (rstrip_head a r Ha) as [r' Hr]. rewrite Hr.
  assert (lstrip (String a r') = String a r') as -> by (simpl; now rewrite Ha).
  rewrite <- Hr. apply rstrip_idem.
Qed.

Lemma split_nonempty (c : ascii) (s : string) : split c s ≠ [].
Proof.
  induction s as [|a s IH]; simpl; [discriminate |].
  destruct (Ascii.eqb a c); [discriminate |].
  destruct (split c s); [contradiction | discriminate].
Qed.

(** Splitting a text with a separator in the middle splits both sides. *)
Lemma split_app (c : ascii) (a b : string) :
  split c (a ++ String c b) = (split c a ++ split c b)%list.
Proof.
  induction a as [|x a IH]; simpl.
  - now rewrite Ascii.eqb_refl.
  - destruct (Ascii.eqb x c); [now rewrite IH |].
    rewrite IH. pose proof (split_nonempty c a) as Hne.
    destruct (split c a); [contradiction | reflexivity].
Qed.

End CsvFacts.

(** X1: every name [_parse_csv] returns is non-empty and carries no
    white space at either end. *)
Theorem parse_csv_names_trimmed (value d : string) :
  d ∈ _parse_csv value → d ≠ "" ∧ PyStr.strip d = d.
Proof.
  unfold _parse_csv. rewrite list_elem_of_filter.
  intros [Hne Hin]. split; [assumption |].
  apply list_elem_of_In, in_map_iff in Hin as (part & <- & _).
  apply strip_idem.
Qed.

Lemma parse_csv_names_trimmed_witness :
  "adaptor" ≠ "" ∧ PyStr.strip "adaptor" = "adaptor".
Proof.
  apply (parse_csv_names_trimmed " domain , adaptor ,, ").
  vm_compute. apply list_elem_of_further, list_elem_of_here.
Defined.

(** X2: [_parse_csv] of two lists joined by a comma is the two results
    one after the other; an empty or blank text gives no name. *)
Theorem parse_csv_comma (a b : string) :
  _parse_csv (a ++ "," ++ b) = (_parse_csv a ++ _parse_csv b)%list
  ∧ _parse_csv "" = []
  ∧ (_parse_csv b = [] → _parse_csv (a ++ "," ++ b) = _parse_csv a).
Proof.
  assert (H : _parse_csv (a ++ "," ++ b) = (_parse_csv a ++ _parse_csv b)%list).
  { unfold _parse_csv. simpl. rewrite split_app, map_app. apply filter_app. }
  split; [exact H |]. split; [reflexivity |].
  intros Hb. now rewrite H, Hb, app_nil_r.
Qed.

Lemma parse_csv_comma_witness :
  _parse_csv ("domain, dataset" ++ "," ++ " , ") = _parse_csv "domain, dataset".
Proof.
  apply (proj2 (proj2 (parse_csv_comma "domain, dataset" " , "))).
  vm_compute. reflexivity.
Defined.

(** ** Forbid entries *)

Lemma parse_forbid_entry_error (forbid : gmap string (gset string))
    (entry : string) :
  malformed entry →
  parse_forbid_entry forbid entry = inl (ValueError (forbid_error entry)).
Proof.
  intros Hbad. unfold malformed, entry_source, entry_destinations in Hbad.
  unfold parse_forbid_entry, forbid_error, entry_source.
  destruct (PyStr.contains ":" entry); [| reflexivity]. simpl.
  destruct (PyStr.split1 ":" entry) as [src0 rest]. simpl in *.
  destruct (PyStr.is_empty (PyStr.strip src0)) eqn:E.
  - apply is_empty_true in E. now rewrite bool_decide_eq_true_2.
  - assert (PyStr.strip src0 ≠ "") as Hsrc
      by (intros Heq; apply is_empty_true in Heq; congruence).
    rewrite (bool_decide_eq_false_2 _ Hsrc).
    destruct Hbad as [? | [? | Hdst]]; [discriminate | contradiction |].
    rewrite Hdst. now rewrite bool_decide_eq_true_2.
Qed.

Lemma forbids_insert (forbid : gmap string (gset string)) (s : string)
    (D : list string) (src d : string) :
  forbids (<[s := (default ∅ (forbid !! s) ∪ list_to_set D)]> forbid) src d
  ↔ forbids forbid src d ∨ (src = s ∧ d ∈ D).
Proof.
  unfold forbids. split.
  - intros (ds & Hlook & Hd).
    apply lookup_insert_Some in Hlook as [[<- <-] | [Hne Hlook]]; [| eauto].
    apply elem_of_union in Hd as [Hd | Hd].
    + destruct (forbid !! s) as [ds0|] eqn:E; simpl in Hd; [eauto |].
      now apply not_elem_of_empty in Hd.
    + right. split; [reflexivity |]. now apply elem_of_list_to_set in Hd.
  - intros [(ds & Hlook & Hd) | [-> Hd]].
    + destruct (decide (s = src)) as [-> | Hne].
      * eexists. rewrite lookup_insert_eq. split; [reflexivity |].
        rewrite Hlook. simpl. now apply elem_of_union_l.
      * exists ds. now rewrite lookup_insert_ne.
    + eexists. rewrite lookup_insert_eq. split; [reflexivity |].
      apply elem_of_union_r. now apply elem_of_list_to_set.
Qed.

Lemma parse_forbid_loop_merge (entries : list string)
    (forbid : gmap string (gset string)) :
  Forall (λ e, ¬ malformed e) entries →
  ∃ m, parse_forbid_loop entries forbid = inr m
       ∧ ∀ src d,
           forbids m src d
           ↔ forbids forbid src d
             ∨ ∃ e, e ∈ entries ∧ entry_source e = src
                    ∧ d ∈ entry_destinations e.
Proof.
  intros Hall. revert forbid.
  induction Hall as [|e es He _ IH]; intros forbid.
  - exists forbid. split; [reflexivity |]. intros src d. split; [auto |].
    intros [H | (e & He & _)]; [assumption | now apply elem_of_nil in He].
  - simpl. rewrite parse_forbid_entry_ok by assumption.
    destruct (IH (<[entry_source e :=
                      (default ∅ (forbid !! entry_source e)
                       ∪ list_to_set (entry_destinations e))]> forbid))
      as (m & Hm & Hchar).
    exists m. split; [assumption |]. intros src d.
    rewrite Hchar, forbids_insert. split.
    + intros [[H | [-> Hd]] | (e' & Hin & Hs & Hd)]; [auto | |].
      * right. exists e. split; [apply list_elem_of_here | auto].
      * right. exists e'. split; [now apply list_elem_of_further | auto].
    + intros [H | (e' & Hin & Hs & Hd)]; [auto |].
      apply elem_of_cons in Hin as [-> | Hin]; [auto |].
      right. eauto.
Qed.

(** X3: [_parse_forbid_entries] stops at the first malformed entry: the
    entries before it are well formed, the ones after it are not looked
    at, and the [ValueError] says what is wrong with that entry. *)
Theorem forbid_entries_first_error (good rest : list string) (bad : string) :
  Forall (λ e, ¬ malformed e) good →
  malformed bad →
  _parse_forbid_entries (good ++ bad :: rest)
  = inl (ValueError (forbid_error bad)).
Proof.
  unfold _parse_forbid_entries. generalize (∅ : gmap string (gset string)).
  intros forbid Hgood Hbad. revert forbid.
  induction Hgood as [|e es He _ IH]; intros forbid; simpl.
  - now rewrite parse_forbid_entry_error.
  - rewrite parse_forbid_entry_ok by assumption. apply IH.
Qed.

Lemma forbid_entries_first_error_witness :
  _parse_forbid_entries (["domain:adaptor"] ++ " :service" :: ["nonsense"])
  = inl (ValueError "Invalid --forbid entry (empty source layer):  :service").
Proof.
  apply (forbid_entries_first_error ["domain:adaptor"] ["nonsense"] " :service").
  - constructor; [| constructor].
    intros [H | [H | H]]; vm_compute in H; discriminate.
  - right. left. reflexivity.
Defined.

(** X4: well-formed entries always parse, and the mapping forbids
    exactly the pairs some entry lists: entries with the same source
    add up. *)
Theorem forbid_entries_merge (entries : list string) :
  Forall (λ e, ¬ malformed e) entries →
  ∃ m, _parse_forbid_entries entries = inr m
       ∧ ∀ src d,
           forbids m src d
           ↔ ∃ e, e ∈ entries ∧ entry_source e = src
                  ∧ d ∈ entry_destinations e.
Proof.
  intros Hall.
  destruct (parse_forbid_loop_merge entries ∅ Hall) as (m & Hm & Hchar).
  exists m. split; [exact Hm |]. intros src d. rewrite Hchar.
  split; [| auto]. intros [(ds & Hlook & _) | H]; [| assumption].
  now rewrite lookup_empty in Hlook.
Qed.

Lemma forbid_entries_merge_witness :
  ∃ m, _parse_forbid_entries ["domain: adaptor"; "domain:service, dataset"]
       = inr m
       ∧ ∀ src d,
           forbids m src d
           ↔ ∃ e, e ∈ ["domain: adaptor"; "domain:service, dataset"]
                  ∧ entry_source e = src ∧ d ∈ entry_destinations e.
Proof.
  apply forbid_entries_merge.
  repeat constructor; intros [H | [H | H]]; vm_compute in H; discriminate.
Defined.

Lemma forbids_determines (m m' : gmap string (gset string)) :
  well_shaped m → well_shaped m' →
  (∀ src d, forbids m src d ↔ forbids m' src d) →
  m = m'.
Proof.
  intros Hm Hm' Hsame.
  assert (Hle : ∀ a b : gmap string (gset string),
            well_shaped a → (∀ src d, forbids a src d → forbids b src d) →
            ∀ k ds, a !! k = Some ds → ∃ ds', b !! k = Some ds' ∧ ds ⊆ ds').
  { intros a b Ha Hab k ds Hk.
    destruct (Ha _ _ Hk) as (_ & Hne & _).
    apply set_choose_L in Hne as [d Hd].
    destruct (Hab k d) as (ds' & Hk' & _); [now exists ds |].
    exists ds'. split; [assumption |]. intros x Hx.
    destruct (Hab k x) as (ds'' & Hk'' & Hx''); [now exists ds |].
    congruence. }
  apply map_eq. intros k.
  destruct (m !! k) as [ds|] eqn:E, (m' !! k) as [ds'|] eqn:E'.
  - destruct (Hle m m' Hm (λ s d, proj1 (Hsame s d)) _ _ E) as (x & Hx & H1).
    destruct (Hle m' m Hm' (λ s d, proj2 (Hsame s d)) _ _ E') as (y & Hy & H2).
    f_equal. apply set_eq. intros d. split; intros Hd;
      [apply H1 in Hd | apply H2 in Hd]; congruence.
  - destruct (Hle m m' Hm (λ s d, proj1 (Hsame s d)) _ _ E) as (x & Hx & _).
    congruence.
  - destruct (Hle m' m Hm' (λ s d, proj2 (Hsame s d)) _ _ E') as (x & Hx & _).
    congruence.
  - reflexivity.
Qed.

(** X5: the order of the [--forbid] entries does not matter: entries
    that parse give the same mapping in any order. *)
Theorem forbid_entries_order_irrelevant (entries entries' : list string)
    (m : gmap string (gset string)) :
  entries ≡ₚ entries' →
  _parse_forbid_entries entries = inr m →
  _parse_forbid_entries entries' = inr m.
Proof.
  intros Hperm Hparse.
  pose proof (parse_forbid_loop_ok _ _ _ Hparse) as Hall.
  assert (Hall' : Forall (λ e, ¬ malformed e) entries')
    by now rewrite <- Hperm.
  destruct (parse_forbid_loop_merge entries ∅ Hall) as (m1 & Hm1 & H1).
  destruct (parse_forbid_loop_merge entries' ∅ Hall') as (m2 & Hm2 & H2).
  unfold _parse_forbid_entries in *. rewrite Hm2. f_equal.
  assert (m1 = m) as -> by congruence.
  assert (Hempty : well_shaped (∅ : gmap string (gset string)))
    by (intros src ds Hlook; now rewrite lookup_empty in Hlook).
  apply forbids_determines.
  - eapply parse_forbid_loop_well_shaped; [exact Hempty | exact Hm2].
  - eapply parse_forbid_loop_well_shaped; [exact Hempty | exact Hm1].
  - intros src d. rewrite H1, H2. clear -Hperm.
    split; intros [H | (e & Hin & Hrest)]; auto; right; exists e;
      (split; [| assumption]); [now rewrite Hperm | now rewrite <- Hperm].
Qed.

Lemma forbid_entries_order_irrelevant_witness :
  _parse_forbid_entries ["dataset:service"; "domain:adaptor"; "domain:service"]
  = inr {[ "domain" := {[ "adaptor"; "service" ]};
           "dataset" := {[ "service" ]} ]}.
Proof.
  apply (forbid_entries_order_irrelevant
           ["domain:adaptor"; "domain:service"; "dataset:service"]).
  - change ((["domain:adaptor"; "domain:service"] ++ ["dataset:service"])%list
            ≡ₚ (["dataset:service"] ++ ["domain:adaptor"; "domain:service"])%list).
    apply Permutation_app_comm.
  - vm_compute. reflexivity.
Defined.

(** ** What the classifiers can return *)

Lemma strip_parts_inv (root ps rel : list string) :
  strip_parts root ps = Some rel → ps = (root ++ rel)%list.
Proof.
  revert ps. induction root as [|r root IH]; intros ps; simpl.
  - now intros [= ->].
  - destruct ps as [|p ps]; [discriminate |].
    case_bool_decide; [| discriminate]. subst p.
    intros H. now rewrite (IH _ H).
Qed.

Lemma file_layer_inv (root_dir fp : Path) (layer_names : gset string)
    (layer : string) :
  _file_layer root_dir fp layer_names = inr layer →
  (layer = "root" ∧ ∃ name, fp = joinpath root_dir [name])
  ∨ (∃ top rest,
       rest ≠ [] ∧ fp = joinpath root_dir (top :: rest)
       ∧ ((top ∈ layer_names ∧ layer = top)
          ∨ ((top ∉ layer_names) ∧ layer = "other"))).
Proof.
  unfold _file_layer, relative_to.
  destruct (strip_parts (parts root_dir) (parts fp)) as [rel|] eqn:E;
    [| discriminate].
  apply strip_parts_inv in E.
  assert (Hfp : fp = joinpath root_dir rel)
    by (destruct fp; unfold joinpath; simpl in *; congruence).
  destruct rel as [|top [|x rest]]; simpl.
  - discriminate.
  - intros [= <-]. left. eauto.
  - case_bool_decide as Htop; intros [= <-]; right;
      exists top, (x :: rest); split; try discriminate; auto.
Qed.

(** A checkable layer is a declared one. *)
Lemma file_layer_declared (root_dir fp : Path) (layer_names : gset string)
    (layer : string) :
  _file_layer root_dir fp layer_names = inr layer →
  reserved layer = false → layer ∈ layer_names.
Proof.
  intros H Hres. apply reserved_false in Hres as [Hroot Hother].
  apply file_layer_inv in H
    as [[-> _] | (top & rest & _ & _ & [[Hin ->] | [_ ->]])];
    congruence.
Qed.

(** X6: for a path below the root, [_file_layer] answers [root] when
    the file is directly in the root directory; when it is in a
    directory, it answers the name of the top directory if that name is
    a declared layer (whatever the name, [root] and [other] included)
    and [other] if it is not; and it has no other answer.  The root path
    itself raises [IndexError], and a path that is not below the root
    raises [ValueError]. *)
Theorem file_layer_cases (root_dir : Path) (layer_names : gset string) :
  (∀ name,
     is_anchor name = false →
     _file_layer root_dir (joinpath root_dir [name]) layer_names = inr "root")
  ∧ (∀ top rest,
       is_anchor top = false → rest ≠ [] →
       _file_layer root_dir (joinpath root_dir (top :: rest)) layer_names
       = inr (if bool_decide (top ∈ layer_names) then top else "other"))
  ∧ (∀ fp layer,
       _file_layer root_dir fp layer_names = inr layer →
       (layer = "root" ∧ ∃ name, fp = joinpath root_dir [name])
       ∨ (∃ top rest,
            rest ≠ [] ∧ fp = joinpath root_dir (top :: rest)
            ∧ ((top ∈ layer_names ∧ layer = top)
               ∨ ((top ∉ layer_names) ∧ layer = "other"))))
  ∧ (_file_layer root_dir root_dir layer_names
     = inl (IndexError "tuple index out of range"))
  ∧ (∀ fp,
       (∀ rel, fp ≠ joinpath root_dir rel) →
       ∃ msg, _file_layer root_dir fp layer_names = inl (ValueError msg)).
Proof.
  split; [intros name _; apply file_layer_top_level |].
  split; [intros top rest _ Hrest; now apply file_layer_nested |].
  split; [intros fp layer; apply file_layer_inv |].
  split.
  - unfold _file_layer, relative_to.
    replace (parts root_dir) with (parts root_dir ++ [])%list at 2
      by apply app_nil_r.
    now rewrite strip_parts_app.
  - intros fp Hout. unfold _file_layer, relative_to.
    destruct (strip_parts (parts root_dir) (parts fp)) as [rel|] eqn:E;
      [| eauto].
    apply strip_parts_inv in E. exfalso. apply (Hout rel).
    destruct fp; unfold joinpath; simpl in *; congruence.
Qed.

Lemma file_layer_cases_witness :
  _file_layer Ex.root (joinpath Ex.root ["root"; "sub"; "x.py"])
    {[ "root"; "domain" ]}
  = inr "root"
  ∧ ∃ msg, _file_layer Ex.root (mkPath ["elsewhere"; "a.py"]) Ex.layers
           = inl (ValueError msg).
Proof.
  split.
  - rewrite (proj1 (proj2 (file_layer_cases Ex.root {[ "root"; "domain" ]}))
               "root" ["sub"; "x.py"] eq_refl) by discriminate.
    vm_compute. reflexivity.
  - apply (proj2 (proj2 (proj2 (proj2 (file_layer_cases Ex.root Ex.layers))))).
    intros rel. unfold joinpath. simpl. discriminate.
Defined.

Lemma split1_decompose (c : ascii) (s : string) :
  ∃ rest, s = fst (PyStr.split1 c s) ++ rest
          ∧ PyStr.contains c (fst (PyStr.split1 c s)) = false
          ∧ (rest = "" ∨ ∃ r, rest = String c r).
Proof.
  induction s as [|x s IH]; simpl.
  - exists "". auto.
  - destruct (Ascii.eqb x c) eqn:E.
    + apply Ascii.eqb_eq in E as ->. exists (String c s). simpl. eauto.
    + destruct IH as (rest & Hs & Hc & Hrest).
      destruct (PyStr.split1 c s) as [h t]. simpl in *.
      exists rest. rewrite E. repeat split; [now rewrite Hs at 1 | assumption..].
Qed.

Lemma imported_layer_inv (m p : string) (layer_names : gset string) :
  reserved (_imported_layer m p layer_names) = false →
  _imported_layer m p layer_names ∈ layer_names
  ∧ PyStr.contains "." (_imported_layer m p layer_names) = false
  ∧ ∃ rest, m = p ++ "." ++ _imported_layer m p layer_names ++ rest
            ∧ (rest = "" ∨ ∃ r, rest = String "." r).
Proof.
  unfold _imported_layer.
  destruct (PyStr.is_empty m); [discriminate |].
  case_bool_decide; [discriminate |].
  destruct (PyStr.startswith m (p ++ ".")) eqn:E; simpl; [| discriminate].
  apply startswith_inv in E as [r ->]. rewrite removeprefix_app.
  case_bool_decide as Hin; [| discriminate]. intros _.
  destruct (split1_decompose "." r) as (rest & Hr & Hc & Hrest).
  split; [assumption |]. split; [assumption |].
  exists rest. split; [| assumption].
  rewrite append_assoc. simpl. f_equal. now rewrite <- Hr.
Qed.

(** X7: [_imported_layer] answers [root], [other] or a declared layer;
    when its answer is not one of the two reserved labels, the module
    path is the package name, a dot, the answer, and then nothing or a
    dot and more: the answer is the first segment below the package. *)
Theorem imported_layer_range (m p : string) (layer_names : gset string) :
  let layer := _imported_layer m p layer_names in
  (layer = "root" ∨ layer = "other" ∨ layer ∈ layer_names)
  ∧ (layer ≠ "root" → layer ≠ "other" →
     layer ∈ layer_names
     ∧ PyStr.contains "." layer = false
     ∧ ∃ rest, m = p ++ "." ++ layer ++ rest
               ∧ (rest = "" ∨ ∃ r, rest = String "." r)).
Proof.
  intros layer. split.
  - destruct (reserved layer) eqn:E.
    + apply reserved_true in E as [? | ?]; auto.
    + right. right. now apply imported_layer_inv.
  - intros Hroot Hother. apply imported_layer_inv. now apply reserved_false.
Qed.

Lemma imported_layer_range_witness :
  ∃ rest, "pkg.adaptor.http" = "pkg" ++ "." ++ "adaptor" ++ rest
          ∧ (rest = "" ∨ ∃ r, rest = String "." r).
Proof.
  destruct (imported_layer_range "pkg.adaptor.http" "pkg" Ex.layers)
    as [_ H].
  destruct H as (_ & _ & Hrest); [vm_compute; discriminate.. |].
  exact Hrest.
Defined.

(** ** What a run reports *)

Lemma effective_forbid_total (entries : list string) :
  Forall (λ e, ¬ malformed e) entries →
  ∃ forbid, effective_forbid entries = inr forbid.
Proof.
  intros Hall. unfold effective_forbid, _parse_forbid_entries.
  destruct (parse_forbid_loop_merge entries ∅ Hall) as (m & -> & _). eauto.
Qed.

(** The outcome of a run whose configuration is accepted. *)
Lemma run_script_configured (args : Args) (fs : FileSystem)
    (forbid : gmap string (gset string)) :
  root_ok args fs = true →
  effective_forbid (arg_forbid args) = inr forbid →
  scan_quiet fs (arg_root args) (layer_names_of args)
    (_iter_python_files fs (arg_root args) (arg_include_tests args)) →
  let files := _iter_python_files fs (arg_root args) (arg_include_tests args) in
  let all := flat_map (file_violations fs (arg_root args) (package_name_of args)
                         (layer_names_of args) forbid) files in
  run_script args fs
  = mkProcess
      (match all with [] => 0 | _ :: _ => 1 end)
      (match all with
       | [] => ["OK: no layered-import violations found."]
       | _ :: _ => "Layered-import violations:" :: map render (sorted all)
       end)
      None
      (filter (λ fp, checkable (arg_root args) (layer_names_of args) fp) files).
Proof.
  intros Hroot Hforbid Hq files all. unfold run_script.
  pose proof (collect_run args fs (mkWorld [] []) Hq) as Hc.
  rewrite Hroot, Hforbid in Hc. cbv zeta in Hc.
  rewrite (main_run _ _ _ _ _ Hc), report_run.
  fold files in Hc |- *. fold all.
  destruct all; reflexivity.
Qed.

(** X8: every violation a run collects is genuine. It names a
    discovered file whose layer is a declared layer other than [root]
    and [other]; and either that file does not parse and the violation is
    the parse-error one, or it stems from an import reference of the
    file whose module lies below the package, in a declared layer other
    than [root] and [other] that the mapping forbids for the file's
    layer. *)
Theorem collected_violations_genuine (args : Args) (fs : FileSystem)
    (w w1 : World) (all : list ImportViolation)
    (forbid : gmap string (gset string)) (v : ImportViolation) :
  collect args fs w = (inr all, w1) →
  effective_forbid (arg_forbid args) = inr forbid →
  v ∈ all →
  let L := layer_names_of args in
  let p := package_name_of args in
  file_path v ∈ _iter_python_files fs (arg_root args) (arg_include_tests args)
  ∧ _file_layer (arg_root args) (file_path v) L = inr (file_layer v)
  ∧ file_layer v ∈ L ∧ file_layer v ≠ "root" ∧ file_layer v ≠ "other"
  ∧ ((∃ ln off msg,
        fs_parse fs (file_path v) = SyntaxError ln off msg
        ∧ v = parse_error_violation (file_path v) (file_layer v) ln off msg)
     ∨ (∃ tree,
          fs_parse fs (file_path v) = Parsed tree
          ∧ (imported_module v, v_lineno v, v_col_offset v) ∈ _iter_imports tree
          ∧ reason v = forbidden_reason
          ∧ imported_layer v = _imported_layer (imported_module v) p L
          ∧ imported_layer v ∈ L
          ∧ imported_layer v ≠ "root" ∧ imported_layer v ≠ "other"
          ∧ (∃ rest, imported_module v = p ++ "." ++ imported_layer v ++ rest)
          ∧ forbids forbid (file_layer v) (imported_layer v))).
Proof.
  intros Hcollect Hforbid Hv L p.
  pose proof (collect_inv _ _ _ _ _ Hcollect) as (_ & _ & Hq).
  rewrite (collect_run _ _ _ Hq), Hforbid in Hcollect.
  destruct (root_ok args fs); [| discriminate].
  cbv zeta in Hcollect. injection Hcollect as <- _.
  apply elem_of_flat_map in Hv as (fp & Hfp & Hv).
  fold L p in Hv. unfold file_violations in Hv.
  destruct (_file_layer (arg_root args) fp L) as [e|A] eqn:EA;
    [now apply elem_of_nil in Hv |].
  destruct (reserved A) eqn:ER; [now apply elem_of_nil in Hv |].
  pose proof (file_layer_declared _ _ _ _ EA ER) as HA.
  apply reserved_false in ER as [HAroot HAother].
  destruct (fs_parse fs fp) as [tree|ln off msg|e] eqn:EP; simpl in Hv.
  - apply list_elem_of_omap in Hv as ([[m l] c] & Href & Hv).
    apply import_violation_Some in Hv as (-> & HB & Hds). simpl in *.
    destruct (imported_layer_inv _ _ _ HB) as (HBin & _ & rest & Hm & _).
    apply reserved_false in HB as [HBroot HBother].
    rewrite EP. repeat split; try assumption.
    right. exists tree. repeat split; try assumption. now exists rest.
  - apply list_elem_of_singleton in Hv as ->. simpl.
    rewrite EP. repeat split; try assumption.
    left. eauto.
  - now apply elem_of_nil in Hv.
Qed.

Lemma collected_violations_genuine_witness :
  forbids default_forbid "domain" "service"
  ∨ ∃ ln off msg, Ex.parse Ex.domain_a = SyntaxError ln off msg.
Proof.
  destruct (collected_violations_genuine Ex.args Ex.fs Ex.w0
              (collect Ex.args Ex.fs Ex.w0).2
              [mkViolation Ex.domain_a "domain" "pkg.adaptor.http" "adaptor" 1 0
                 forbidden_reason;
               mkViolation Ex.domain_a "domain" "pkg.service.api" "service" 1 0
                 forbidden_reason;
               mkViolation Ex.adaptor_b "adaptor" "(parse error)" "other" 3 0
                 "SyntaxError: invalid syntax"]
              default_forbid
              (mkViolation Ex.domain_a "domain" "pkg.service.api" "service" 1 0
                 forbidden_reason))
    as (_ & _ & _ & _ & _ & [(ln & off & msg & Hp & _) | (tree & _ & _ & _ & _ & _ & _ & _ & _ & Hf)]).
  - vm_compute. reflexivity.
  - vm_compute. reflexivity.
  - vm_compute. apply list_elem_of_further, list_elem_of_here.
  - right. eauto.
  - left. exact Hf.
Defined.

Lemma parse_caught (p : Path) (e : exn) : Ex.parse p ≠ Uncaught e.
Proof. unfold Ex.parse. case_bool_decide; discriminate. Qed.

(** X9: with an existing root directory, well-formed [--forbid]
    entries, and every file the scan reads giving a tree or a
    [SyntaxError], a run does not raise: it ends with status 0 and the
    single confirmation line when nothing was collected, and otherwise
    with status 1, the header and one line for each collected
    violation. *)
Theorem accepted_run_completes (args : Args) (fs : FileSystem) :
  fs_exists fs (arg_root args) = true →
  fs_is_dir fs (arg_root args) = true →
  Forall (λ e, ¬ malformed e) (arg_forbid args) →
  scan_quiet fs (arg_root args) (layer_names_of args)
    (_iter_python_files fs (arg_root args) (arg_include_tests args)) →
  ∃ all,
    (∀ w, ∃ w1, collect args fs w = (inr all, w1))
    ∧ err_message (run_script args fs) = None
    ∧ (all = [] →
       exit_status (run_script args fs) = 0%Z
       ∧ out_lines (run_script args fs)
         = ["OK: no layered-import violations found."])
    ∧ (all ≠ [] →
       exit_status (run_script args fs) = 1%Z
       ∧ out_lines (run_script args fs)
         = "Layered-import violations:" :: map render (sorted all)
       ∧ length (out_lines (run_script args fs)) = S (length all)).
Proof.
  intros Hex Hdir Hall Hq.
  assert (Hroot : root_ok args fs = true)
    by (unfold root_ok; now rewrite Hex, Hdir).
  destruct (effective_forbid_total _ Hall) as [forbid Hforbid].
  rewrite (run_script_configured _ _ _ Hroot Hforbid Hq). cbv zeta.
  eexists. split.
  { intros w. rewrite (collect_run _ _ _ Hq), Hroot, Hforbid. cbv zeta. eauto. }
  split; [reflexivity |].
  split.
  - intros ->. auto.
  - intros Hne.
    destruct (flat_map _ _) as [|v all] eqn:E; [congruence |].
    simpl. repeat split. f_equal. rewrite length_map.
    apply (Permutation_length (sorted_perm (v :: all))).
Qed.

Lemma accepted_run_completes_witness :
  ∃ all,
    (∀ w, ∃ w1, collect Ex.args Ex.fs w = (inr all, w1))
    ∧ err_message (run_script Ex.args Ex.fs) = None
    ∧ (all ≠ [] → exit_status (run_script Ex.args Ex.fs) = 1%Z).
Proof.
  destruct (accepted_run_completes Ex.args Ex.fs) as (all & Hc & He & _ & Hs).
  - reflexivity.
  - reflexivity.
  - constructor.
  - intros fp e _ _. apply parse_caught.
  - exists all. split; [exact Hc |]. split; [exact He |].
    intros Hne. now destruct (Hs Hne).
Defined.

Lemma checkable_true (root_dir fp : Path) (layer_names : gset string) :
  checkable root_dir layer_names fp = true
  ↔ ∃ top rest,
      rest ≠ [] ∧ fp = joinpath root_dir (top :: rest)
      ∧ top ∈ layer_names ∧ top ≠ "root" ∧ top ≠ "other".
Proof.
  unfold checkable. split.
  - destruct (_file_layer root_dir fp layer_names) as [e|A] eqn:E;
      [discriminate |].
    rewrite negb_true_iff. intros Hres.
    apply reserved_false in Hres as [Hroot Hother].
    apply file_layer_inv in E
      as [[-> _] | (top & rest & Hrest & -> & [[Hin ->] | [_ ->]])];
      try congruence.
    exists top, rest. auto.
  - intros (top & rest & Hrest & -> & Hin & Hroot & Hother).
    rewrite file_layer_nested, bool_decide_eq_true_2 by assumption.
    rewrite negb_true_iff. now apply reserved_false.
Qed.

(** X10: a run with an accepted configuration, in which every file
    the scan reads gives a tree or a [SyntaxError], opens exactly the
    discovered files that lie in a directory named after a declared
    layer other than [root] and [other], in discovery order; files
    directly in the root and files of other directories are never
    opened. *)
Theorem files_read_are_layer_files (args : Args) (fs : FileSystem) :
  fs_exists fs (arg_root args) = true →
  fs_is_dir fs (arg_root args) = true →
  Forall (λ e, ¬ malformed e) (arg_forbid args) →
  scan_quiet fs (arg_root args) (layer_names_of args)
    (_iter_python_files fs (arg_root args) (arg_include_tests args)) →
  let files := _iter_python_files fs (arg_root args) (arg_include_tests args) in
  files_read (run_script args fs) `sublist_of` files
  ∧ ∀ fp,
      fp ∈ files_read (run_script args fs)
      ↔ fp ∈ files
        ∧ ∃ top rest,
            rest ≠ [] ∧ fp = joinpath (arg_root args) (top :: rest)
            ∧ top ∈ layer_names_of args ∧ top ≠ "root" ∧ top ≠ "other".
Proof.
  intros Hex Hdir Hall Hq files.
  assert (Hroot : root_ok args fs = true)
    by (unfold root_ok; now rewrite Hex, Hdir).
  destruct (effective_forbid_total _ Hall) as [forbid Hforbid].
  rewrite (run_script_configured _ _ _ Hroot Hforbid Hq). cbv zeta. simpl.
  fold files. split; [apply sublist_filter |].
  intros fp. rewrite list_elem_of_filter, <- checkable_true.
  rewrite Is_true_true. tauto.
Qed.

Lemma files_read_are_layer_files_witness :
  files_read (run_script Ex.args Ex.fs)
  `sublist_of` [Ex.domain_a; Ex.adaptor_b; Ex.scripts_c].
Proof.
  apply (proj1 (files_read_are_layer_files Ex.args Ex.fs eq_refl eq_refl
                  (List.Forall_nil _) (λ fp e _ _, parse_caught fp e))).
Defined.

Lemma filter_none {A} (P : A → Prop) `{Hdec : !∀ x, Decision (P x)}
    (l : list A) :
  (∀ x, x ∈ l → ¬ P x) → filter P l = [].
Proof.
  induction l as [|x l IH]; intros Hno; [reflexivity |].
  rewrite filter_cons, decide_False by (apply Hno, list_elem_of_here).
  apply IH. intros y Hy. apply Hno. now apply list_elem_of_further.
Qed.

(** The parts of the root are parts of every discovered path, so an
    excluded part of the root excludes every file. *)
Lemma iter_python_files_excluded_root (fs : FileSystem) (root_dir : Path)
    (include_tests : bool) :
  "__pycache__" ∈ parts root_dir
  ∨ (include_tests = false ∧ "tests" ∈ parts root_dir) →
  _iter_python_files fs root_dir include_tests = [].
Proof.
  intros Hroot. unfold _iter_python_files. apply filter_none.
  intros fp Hfp. apply list_elem_of_In, in_map_iff in Hfp as (rel & <- & _).
  unfold joinpath. simpl. intros [Hcache Htests].
  destruct Hroot as [H | [Hinc H]].
  - apply Hcache. apply elem_of_app. now left.
  - apply Htests. split; [assumption |]. apply elem_of_app. now left.
Qed.

(** X11: the exclusion of [tests] and [__pycache__] looks at the whole
    path, the root's own parts included.  A root directory below a
    directory named [tests], scanned without [--include-tests], or below
    one named [__pycache__], has no file scanned at all: the run reads
    nothing and reports success whatever the files contain. *)
Theorem excluded_root_reports_ok (args : Args) (fs : FileSystem) :
  fs_exists fs (arg_root args) = true →
  fs_is_dir fs (arg_root args) = true →
  Forall (λ e, ¬ malformed e) (arg_forbid args) →
  "__pycache__" ∈ parts (arg_root args)
  ∨ (arg_include_tests args = false ∧ "tests" ∈ parts (arg_root args)) →
  _iter_python_files fs (arg_root args) (arg_include_tests args) = []
  ∧ run_script args fs
    = mkProcess 0 ["OK: no layered-import violations found."] None [].
Proof.
  intros Hex Hdir Hall Hexcl.
  assert (Hroot : root_ok args fs = true)
    by (unfold root_ok; now rewrite Hex, Hdir).
  destruct (effective_forbid_total _ Hall) as [forbid Hforbid].
  pose proof (iter_python_files_excluded_root fs _ _ Hexcl) as Hnone.
  split; [assumption |].
  rewrite (run_script_configured _ _ _ Hroot Hforbid).
  - cbv zeta. now rewrite Hnone.
  - intros fp e Hfp. rewrite Hnone in Hfp. now apply elem_of_nil in Hfp.
Qed.

Lemma excluded_root_reports_ok_witness :
  run_script (mkArgs (mkPath ["tests"; "pkg"]) "pkg" default_layers [] false)
    Ex.fs
  = mkProcess 0 ["OK: no layered-import violations found."] None [].
Proof.
  apply (excluded_root_reports_ok
           (mkArgs (mkPath ["tests"; "pkg"]) "pkg" default_layers [] false)
           Ex.fs eq_refl eq_refl (List.Forall_nil _)).
  right. split; [reflexivity |]. apply list_elem_of_here.
Defined.

(** ** Changing the configuration *)

Lemma sublist_flat_map {A B} (f : A → list B) (l1 l2 : list A) :
  l1 `sublist_of` l2 → flat_map f l1 `sublist_of` flat_map f l2.
Proof.
  induction 1 as [|x l1 l2 _ IH|x l1 l2 _ IH]; simpl.
  - constructor.
  - now apply sublist_app.
  - now apply sublist_inserts_l.
Qed.

Lemma filter_sublist_impl {A} (P Q : A → Prop)
    `{HP : !∀ x, Decision (P x)} `{HQ : !∀ x, Decision (Q x)} (l : list A) :
  (∀ x, P x → Q x) → filter P l `sublist_of` filter Q l.
Proof.
  intros HPQ. induction l as [|x l IH]; [constructor |].
  rewrite !filter_cons. destruct (decide (P x)) as [Hx|Hx].
  - rewrite decide_True by auto. now apply sublist_skip.
  - destruct (decide (Q x)); [now apply sublist_cons | assumption].
Qed.

Lemma iter_python_files_include_tests (fs : FileSystem) (root_dir : Path)
    (include_tests : bool) :
  _iter_python_files fs root_dir include_tests
  `sublist_of` _iter_python_files fs root_dir true.
Proof.
  unfold _iter_python_files. apply filter_sublist_impl.
  intros fp [Hcache _]. split; [assumption |]. intros [? _]. discriminate.
Qed.

Lemma scan_quiet_sublist (fs : FileSystem) (root_dir : Path)
    (L : gset string) (files files' : list Path) :
  files `sublist_of` files' →
  scan_quiet fs root_dir L files' → scan_quiet fs root_dir L files.
Proof.
  intros Hsub Hq fp e Hfp. apply Hq. now apply (elem_of_sublist files).
Qed.

(** X12: [--include-tests] only adds to a scan.  The files scanned
    without it are scanned with it, in the same order; and when the scan
    with test files returns, the scan without them returns too, and
    every violation it collects is collected, in the same order, by the
    scan with test files. *)
Theorem include_tests_only_adds (args : Args) (fs : FileSystem) (w w1' : World)
    (all' : list ImportViolation) :
  collect (with_tests args) fs w = (inr all', w1') →
  _iter_python_files fs (arg_root args) (arg_include_tests args)
  `sublist_of` _iter_python_files fs (arg_root args) true
  ∧ ∃ all w1,
      collect args fs w = (inr all, w1)
      ∧ all `sublist_of` all'.
Proof.
  intros Hcollect. split; [apply iter_python_files_include_tests |].
  pose proof (collect_inv _ _ _ _ _ Hcollect) as (_ & _ & Hq').
  pose proof (scan_quiet_sublist _ _ _ _ _
                (iter_python_files_include_tests fs (arg_root args)
                   (arg_include_tests args)) Hq') as Hq.
  rewrite (collect_run _ _ _ Hq') in Hcollect.
  pose proof (collect_run args fs w Hq) as Hc.
  unfold with_tests, root_ok, package_name_of, layer_names_of in *.
  simpl in Hcollect.
  destruct (fs_exists fs (arg_root args) && fs_is_dir fs (arg_root args));
    [| discriminate].
  destruct (effective_forbid (arg_forbid args)) as [e|forbid]; [discriminate |].
  cbv zeta in *. injection Hcollect as <- _.
  eexists _, _. split; [exact Hc |].
  apply sublist_flat_map, iter_python_files_include_tests.
Qed.

Lemma include_tests_only_adds_witness :
  ∃ all w1,
    collect Ex.args Ex.fs Ex.w0 = (inr all, w1)
    ∧ all `sublist_of`
        [mkViolation Ex.domain_a "domain" "pkg.adaptor.http" "adaptor" 1 0
           forbidden_reason;
         mkViolation Ex.domain_a "domain" "pkg.service.api" "service" 1 0
           forbidden_reason;
         mkViolation Ex.adaptor_b "adaptor" "(parse error)" "other" 3 0
           "SyntaxError: invalid syntax"].
Proof.
  apply (include_tests_only_adds Ex.args Ex.fs Ex.w0
           (collect (with_tests Ex.args) Ex.fs Ex.w0).2).
  vm_compute. reflexivity.
Defined.

Section ForbidChanges.

Context (fs : FileSystem) (root_dir : Path) (package_name : string).
Context (layer_names : gset string).

Lemma omap_pointwise {A B} (f g : A → option B) (l : list A) :
  (∀ x, f x = g x) → omap f l = omap g l.
Proof.
  intros Hfg. induction l as [|x l IH]; [reflexivity |].
  simpl. rewrite Hfg. destruct (g x); [f_equal |]; exact IH.
Qed.

Lemma import_violation_declared_part (forbid : gmap string (gset string))
    (fp : Path) (A : string) (ref : ImportRef) :
  A ∈ layer_names →
  import_violation fp A package_name layer_names
    (declared_part layer_names forbid) ref
  = import_violation fp A package_name layer_names forbid ref.
Proof.
  intros HA. destruct ref as [[m l] c]. unfold import_violation.
  destruct (reserved (_imported_layer m package_name layer_names)) eqn:HB;
    [reflexivity |].
  pose proof (imported_layer_inv _ _ _ HB) as (HBin & _).
  unfold declared_part. rewrite lookup_fmap, map_lookup_filter.
  destruct (forbid !! A) as [ds|]; simpl; [| reflexivity].
  rewrite option_guard_True by assumption. simpl.
  destruct (decide (_imported_layer m package_name layer_names ∈ ds)).
  - rewrite !bool_decide_eq_true_2; [reflexivity | assumption |].
    now apply elem_of_intersection.
  - rewrite !bool_decide_eq_false_2; [reflexivity | assumption |].
    rewrite elem_of_intersection. tauto.
Qed.

(** X13: rules that name an undeclared layer never fire.  Dropping,
    from the mapping, every source that is not a declared layer and, from
    every destination set, every name that is not a declared layer
    changes the outcome of the check of no file. *)
Theorem undeclared_rules_inert (forbid : gmap string (gset string))
    (fp : Path) (w : World) :
  _violations_for_file fs root_dir fp package_name layer_names
    (declared_part layer_names forbid) w
  = _violations_for_file fs root_dir fp package_name layer_names forbid w.
Proof.
  rewrite !violations_for_file_run.
  destruct (_file_layer root_dir fp layer_names) as [e|A] eqn:EA;
    [reflexivity |].
  destruct (reserved A) eqn:ER; [reflexivity |].
  pose proof (file_layer_declared _ _ _ _ EA ER) as HA.
  f_equal. destruct (fs_parse fs fp) as [tree|ln off msg|e]; simpl;
    [| reflexivity..].
  f_equal. apply omap_pointwise. intros ref.
  now apply import_violation_declared_part.
Qed.

Lemma omap_sublist {A B} (f g : A → option B) (l : list A) :
  (∀ x y, f x = Some y → g x = Some y) → omap f l `sublist_of` omap g l.
Proof.
  intros Hfg. induction l as [|x l IH]; [constructor |]. simpl.
  destruct (f x) as [y|] eqn:E.
  - rewrite (Hfg _ _ E). now apply sublist_skip.
  - destruct (g x); [now apply sublist_cons | assumption].
Qed.

(** X14: forbidding more never reports less.  When every pair one
    mapping forbids is forbidden by another, the violations of a file
    under the first are, in order, among its violations under the
    second. *)
Theorem more_rules_more_violations (forbid forbid' : gmap string (gset string))
    (fp : Path) (w w1 : World) (vs : list ImportViolation) :
  (∀ src dst, forbids forbid src dst → forbids forbid' src dst) →
  _violations_for_file fs root_dir fp package_name layer_names forbid w
  = (inr vs, w1) →
  ∃ vs',
    _violations_for_file fs root_dir fp package_name layer_names forbid' w
    = (inr vs', w1)
    ∧ vs `sublist_of` vs'.
Proof.
  intros Hmore. rewrite !violations_for_file_run.
  destruct (_file_layer root_dir fp layer_names) as [e|A]; [discriminate |].
  destruct (reserved A).
  { intros [= <- <-]. eexists. split; [reflexivity | constructor]. }
  destruct (fs_parse fs fp) as [tree|ln off msg|e]; simpl; [| | discriminate];
    intros [= <- <-]; eexists; (split; [reflexivity |]); [| reflexivity].
  apply omap_sublist. intros ref v Hv.
  apply import_violation_Some in Hv as (-> & HB & ds & Hds & Hin).
  apply import_violation_Some. repeat split; [assumption |].
  apply Hmore. now exists ds.
Qed.

End ForbidChanges.

Lemma more_rules_more_violations_witness :
  ∃ vs',
    _violations_for_file Ex.fs Ex.root Ex.domain_a "pkg" Ex.layers
      default_forbid Ex.w0
    = (inr vs', after_read Ex.w0 Ex.domain_a)
    ∧ [mkViolation Ex.domain_a "domain" "pkg.service.api" "service" 1 0
         forbidden_reason] `sublist_of` vs'.
Proof.
  apply (more_rules_more_violations Ex.fs Ex.root "pkg" Ex.layers
           {[ "domain" := {[ "service" ]} ]} default_forbid Ex.domain_a Ex.w0).
  - intros src dst (ds & Hlook & Hin).
    apply lookup_singleton_Some in Hlook as [<- <-].
    apply elem_of_singleton in Hin as ->.
    eexists. split; [reflexivity |].
    apply (bool_decide_unpack _). vm_compute. exact I.
  - vm_compute. reflexivity.
Defined.

(** ** Nothing found is left out *)

Lemma collected_is_printed (args : Args) (fs : FileSystem)
    (forbid : gmap string (gset string)) (fp : Path) (v : ImportViolation) :
  root_ok args fs = true →
  effective_forbid (arg_forbid args) = inr forbid →
  scan_quiet fs (arg_root args) (layer_names_of args)
    (_iter_python_files fs (arg_root args) (arg_include_tests args)) →
  fp ∈ _iter_python_files fs (arg_root args) (arg_include_tests args) →
  v ∈ file_violations fs (arg_root args) (package_name_of args)
        (layer_names_of args) forbid fp →
  exit_status (run_script args fs) = 1%Z
  ∧ render v ∈ out_lines (run_script args fs).
Proof.
  intros Hroot Hforbid Hq Hfp Hv.
  rewrite (run_script_configured _ _ _ Hroot Hforbid Hq). cbv zeta.
  assert (Hall : v ∈ flat_map
                   (file_violations fs (arg_root args) (package_name_of args)
                      (layer_names_of args) forbid)
                   (_iter_python_files fs (arg_root args)
                      (arg_include_tests args)))
    by (apply elem_of_flat_map; eauto).
  destruct (flat_map _ _) as [|v0 all] eqn:E; [now apply elem_of_nil in Hall |].
  simpl. split; [reflexivity |].
  apply list_elem_of_further, list_elem_of_In, in_map, list_elem_of_In.
  now rewrite (sorted_perm (v0 :: all)).
Qed.

(** X15: nothing found is left out of the report.  In a run with an
    accepted configuration in which every file the scan reads gives a
    tree or a [SyntaxError], for a discovered file of a declared layer
    other than [root] and [other]: the run ends with status 1 and prints
    the parse-error line when the file fails with a [SyntaxError], and
    prints the line of every import reference of the file whose layer is
    a layer, other than [root] and [other], that the mapping forbids for
    the file's layer. *)
Theorem forbidden_imports_are_printed (args : Args) (fs : FileSystem)
    (forbid : gmap string (gset string)) (fp : Path) (A : string) :
  fs_exists fs (arg_root args) = true →
  fs_is_dir fs (arg_root args) = true →
  effective_forbid (arg_forbid args) = inr forbid →
  scan_quiet fs (arg_root args) (layer_names_of args)
    (_iter_python_files fs (arg_root args) (arg_include_tests args)) →
  fp ∈ _iter_python_files fs (arg_root args) (arg_include_tests args) →
  _file_layer (arg_root args) fp (layer_names_of args) = inr A →
  A ≠ "root" → A ≠ "other" →
  (∀ ln off msg,
     fs_parse fs fp = SyntaxError ln off msg →
     exit_status (run_script args fs) = 1%Z
     ∧ render (mkViolation fp A "(parse error)" "other" (or_default ln 1)
                 (or_default off 0) ("SyntaxError: " ++ msg))
       ∈ out_lines (run_script args fs))
  ∧ (∀ tree m l c,
       fs_parse fs fp = Parsed tree →
       (m, l, c) ∈ _iter_imports tree →
       let B := _imported_layer m (package_name_of args) (layer_names_of args) in
       B ≠ "root" → B ≠ "other" →
       forbids forbid A B →
       exit_status (run_script args fs) = 1%Z
       ∧ render (mkViolation fp A m B l c
                   "Forbidden import direction by configured layer rules.")
         ∈ out_lines (run_script args fs)).
Proof.
  intros Hex Hdir Hforbid Hq Hfp HA Hroot Hother.
  assert (Hok : root_ok args fs = true)
    by (unfold root_ok; now rewrite Hex, Hdir).
  assert (HresA : reserved A = false) by now apply reserved_false.
  split.
  - intros ln off msg Hparse.
    apply (collected_is_printed _ _ _ fp _ Hok Hforbid Hq Hfp).
    unfold file_violations. rewrite HA, HresA, Hparse. simpl.
    apply list_elem_of_here.
  - intros tree m l c Hparse Href B HBroot HBother Hforb.
    apply (collected_is_printed _ _ _ fp _ Hok Hforbid Hq Hfp).
    unfold file_violations. rewrite HA, HresA, Hparse. simpl.
    apply list_elem_of_omap. exists (m, l, c). split; [assumption |].
    apply import_violation_Some. simpl. repeat split; [| exact Hforb].
    now apply reserved_false.
Qed.

Lemma forbidden_imports_are_printed_witness :
  exit_status (run_script Ex.args Ex.fs) = 1%Z
  ∧ render (mkViolation Ex.domain_a "domain" "pkg.service.api" "service" 1 0
              "Forbidden import direction by configured layer rules.")
    ∈ out_lines (run_script Ex.args Ex.fs).
Proof.
  refine (proj2 (forbidden_imports_are_printed Ex.args Ex.fs default_forbid
                   Ex.domain_a "domain" eq_refl eq_refl _
                   (λ fp e _ _, parse_caught fp e) _ _ _ _)
            Ex.tree "pkg.service.api" 1%Z 0%Z _ _ _ _ _).
  - vm_compute. reflexivity.
  - vm_compute. apply list_elem_of_here.
  - vm_compute. reflexivity.
  - discriminate.
  - discriminate.
  - reflexivity.
  - vm_compute. apply list_elem_of_further, list_elem_of_here.
  - vm_compute. discriminate.
  - vm_compute. discriminate.
  - exists {[ "dataset"; "adaptor"; "service" ]}.
    split; [vm_compute; reflexivity |].
    apply (bool_decide_unpack _). vm_compute. exact I.
Defined.

(** X16: the per-file check of a path that is not below the root raises
    [ValueError] without reading the file, and a scan that meets such a
    path stops there: the violations collected before it are lost and
    the files after it are not looked at. *)
Theorem path_outside_root_aborts (fs : FileSystem) (root_dir fp : Path)
    (package_name : string) (layer_names : gset string)
    (forbid : gmap string (gset string)) (files : list Path)
    (acc : list ImportViolation) (w : World) :
  (∀ rel, fp ≠ joinpath root_dir rel) →
  ∃ msg,
    _violations_for_file fs root_dir fp package_name layer_names forbid w
    = (inl (ValueError msg), w)
    ∧ scan_loop fs root_dir package_name layer_names forbid (fp :: files) acc w
      = (inl (ValueError msg), w).
Proof.
  intros Hout.
  assert (H : ∃ msg, _file_layer root_dir fp layer_names = inl (ValueError msg)).
  { unfold _file_layer, relative_to.
    destruct (strip_parts (parts root_dir) (parts fp)) as [rel|] eqn:E;
      [| eauto].
    apply strip_parts_inv in E. exfalso. apply (Hout rel).
    destruct fp; unfold joinpath; simpl in *; congruence. }
  destruct H as [msg Hmsg]. exists msg.
  assert (Hrun :
    _violations_for_file fs root_dir fp package_name layer_names forbid w
    = (inl (ValueError msg), w))
    by now rewrite violations_for_file_run, Hmsg.
  split; [exact Hrun |]. now rewrite scan_loop_cons, Hrun.
Qed.

Lemma path_outside_root_aborts_witness :
  ∃ msg,
    _violations_for_file Ex.fs Ex.root (mkPath ["elsewhere"; "a.py"]) "pkg"
      Ex.layers default_forbid Ex.w0
    = (inl (ValueError msg), Ex.w0)
    ∧ scan_loop Ex.fs Ex.root "pkg" Ex.layers default_forbid
        [mkPath ["elsewhere"; "a.py"]; Ex.domain_a] [] Ex.w0
      = (inl (ValueError msg), Ex.w0).
Proof.
  apply (path_outside_root_aborts Ex.fs Ex.root (mkPath ["elsewhere"; "a.py"])
           "pkg" Ex.layers default_forbid [Ex.domain_a] [] Ex.w0).
  intros rel. unfold joinpath. simpl. discriminate.
Defined.

(** ** Parse failures *)




(** ** Exceptions the check does not catch *)

(** X17: when reading or parsing a discovered file of a declared layer
    raises anything but a [SyntaxError], the run ends with that
    exception, the files before it having been read without raising:
    the status is 1, nothing is printed on the output stream, not even
    the violations collected so far, and the files after it are never
    read. *)
Theorem uncaught_exception_aborts_run (args : Args) (fs : FileSystem)
    (forbid : gmap string (gset string)) (pre post : list Path) (fp : Path)
    (e : exn) :
  fs_exists fs (arg_root args) = true →
  fs_is_dir fs (arg_root args) = true →
  effective_forbid (arg_forbid args) = inr forbid →
  _iter_python_files fs (arg_root args) (arg_include_tests args)
  = (pre ++ fp :: post)%list →
  scan_quiet fs (arg_root args) (layer_names_of args) pre →
  checkable (arg_root args) (layer_names_of args) fp = true →
  fs_parse fs fp = Uncaught e →
  let read :=
    (filter (λ g, checkable (arg_root args) (layer_names_of args) g) pre
       ++ [fp])%list in
  (∀ w, collect args fs w = (inl e, mkWorld (reads w ++ read) (stdout w)))
  ∧ (∀ w, main args fs w = (inl e, mkWorld (reads w ++ read) (stdout w)))
  ∧ exit_status (run_script args fs) = 1%Z
  ∧ out_lines (run_script args fs) = []
  ∧ err_message (run_script args fs) ≠ None
  ∧ files_read (run_script args fs) = read.
Proof.
  intros Hex Hdir Hforbid Hfiles Hquiet Hcheck Hparse read.
  assert (Hroot : root_ok args fs = true)
    by (unfold root_ok; now rewrite Hex, Hdir).
  pose proof (iter_python_files_classify fs (arg_root args)
                (arg_include_tests args) (layer_names_of args)) as Hclass.
  rewrite Hfiles in Hclass.
  apply Forall_app in Hclass as [Hpre Hfp]. apply Forall_cons in Hfp as [Hfp _].
  assert (Hraise : file_raises fs (arg_root args) (layer_names_of args) fp
                   = Some e)
    by now rewrite file_raises_classified, Hcheck, Hparse.
  assert (Hcollect : ∀ w, collect args fs w
                          = (inl e, mkWorld (reads w ++ read) (stdout w))).
  { intros w. rewrite collect_unfold, Hroot, Hforbid, Hfiles.
    rewrite (scan_loop_abort _ _ _ _ _ pre post fp e);
      [| now apply scan_quiet_no_raise | assumption].
    rewrite filter_app, filter_cons, filter_nil.
    rewrite decide_True by now rewrite Hcheck. reflexivity. }
  split; [exact Hcollect |].
  assert (Hmain : ∀ w, main args fs w
                       = (inl e, mkWorld (reads w ++ read) (stdout w)))
    by (intros w; apply main_error, Hcollect).
  split; [exact Hmain |].
  unfold run_script. rewrite Hmain. destruct e; simpl; repeat split; discriminate.
Qed.

Lemma uncaught_exception_aborts_run_witness :
  exit_status (run_script Ex.args Ex.fs_nul) = 1%Z
  ∧ out_lines (run_script Ex.args Ex.fs_nul) = []
  ∧ err_message (run_script Ex.args Ex.fs_nul) ≠ None
  ∧ files_read (run_script Ex.args Ex.fs_nul) = [Ex.domain_a].
Proof.
  apply (uncaught_exception_aborts_run Ex.args Ex.fs_nul default_forbid []
           [Ex.adaptor_b; Ex.scripts_c] Ex.domain_a
           (ValueError "source code string cannot contain null bytes")).
  - reflexivity.
  - reflexivity.
  - reflexivity.
  - vm_compute. reflexivity.
  - intros fp e Hfp. now apply elem_of_nil in Hfp.
  - vm_compute. reflexivity.
  - vm_compute. reflexivity.
Defined.
